(** * influxdb-firehose-nozzle: the InfluxDB client

    A shallow embedding of [influxdbclient/influxdb_client.go]: the
    in-memory aggregate of metric points kept by [Client], the ingest
    path ([AddMetric]), the self-reported health metrics
    ([populateInternalMetrics], [AlertSlowConsumerError]), the line
    serializer ([formatMetrics]) and the flush ([PostMetrics]).

    Conventions of the embedding:
    - Go's fixed-width integers are [Z] with the wrap-around written out;
    - [float64] is the IEEE binary64 format of [SpecFloat];
    - a Go [string] is a [string] (a sequence of bytes);
    - [map[metricKey]metricValue] is a [gmap]; the order in which [range]
      visits it is chosen by the runtime and is an input of the model;
    - the wall clock, the map iteration order and the HTTP server are the
      [World]; every function that touches them threads the world. *)

From Stdlib Require Import ZArith String Ascii Lia.
From Stdlib Require Import Floats.SpecFloat.
From Stdlib Require Import Numbers.DecimalString.
From stdpp Require Import base option gmap strings list fin_maps countable.

Open Scope string_scope.
Open Scope Z_scope.

(** ** Machine integers *)

Module Int.

Definition wrap_unsigned (bits : Z) (z : Z) : Z := z mod 2 ^ bits.

Definition wrap_signed (bits : Z) (z : Z) : Z :=
  (z + 2 ^ (bits - 1)) mod 2 ^ bits - 2 ^ (bits - 1).

Definition int64 (z : Z) : Z := wrap_signed 64 z.
Definition int32 (z : Z) : Z := wrap_signed 32 z.
Definition uint64 (z : Z) : Z := wrap_unsigned 64 z.

Definition min_int64 : Z := - 2 ^ 63.
Definition max_int64 : Z := 2 ^ 63 - 1.
Definition max_uint64 : Z := 2 ^ 64 - 1.

Definition in_int64 (z : Z) : Prop := min_int64 <= z <= max_int64.
Definition in_uint64 (z : Z) : Prop := 0 <= z <= max_uint64.

(** [a * b] on [int64]. *)
Definition mul64 (a b : Z) : Z := int64 (a * b).

(** [a / b] on [int64], for a non-zero [b]: Go truncates towards zero. *)
Definition quot64 (a b : Z) : Z := int64 (Z.quot a b).

(** [a + b] on [uint64]. *)
Definition add_u64 (a b : Z) : Z := uint64 (a + b).

End Int.

(** ** [float64]

    A [float64] is a [spec_float] in the canonical form of binary64 (a
    mantissa of 53 bits, or fewer for a subnormal); any other
    [spec_float] is read as the binary64 it rounds to. *)

Definition float64 : Type := spec_float.

Module Float64.

Definition prec : Z := 53.
Definition emax : Z := 1024.
Definition emin : Z := 3 - emax - prec.   (* -1074 *)

Definition canonical (f : float64) : float64 :=
  match f with
  | S754_finite s m e =>
      binary_normalize prec emax (if s then Z.neg m else Z.pos m) e s
  | _ => f
  end.

(** [float64(u)] for a [uint64]: round to nearest, ties to even. *)
Definition of_uint64 (u : Z) : float64 :=
  binary_normalize prec emax (Int.uint64 u) 0 false.

End Float64.

Definition float64_of_uint64 (u : Z) : float64 := Float64.of_uint64 u.

(** The [float64] 3.5, that is [7 * 2 ^ -1] normalised to 53 bits. *)
Definition float_3_5 : float64 :=
  binary_normalize Float64.prec Float64.emax 7 (-1) false.

(** ** The parts of the Go standard library the client calls *)

Module strconv.

(** [strconv.FormatInt(i, 10)]. *)
Definition FormatInt (i : Z) : string :=
  NilZero.string_of_int (Z.to_int i).

(** *** [strconv.FormatFloat(f, 'f', -1, 64)]

    The digits are the shortest decimal that reads back as [f]: the
    library walks the decimal positions from the most significant one
    down and stops at the first position where cutting the exact value
    there (rounding down) or bumping the digit (rounding up) stays
    inside the interval of reals that round to [f]; the interval's end
    points are allowed exactly when the mantissa is even.  When both
    are inside, the nearer one is taken, the even digit on a tie. *)

(** A positive rational as numerator over a power of two, scaled so
    that everything below is an integer: [v = num / 2 ^ sh]. *)
Record interval := {
  i_lo : Z;      (* lower bound * 2^sh *)
  i_mid : Z;     (* the value * 2^sh *)
  i_hi : Z;      (* upper bound * 2^sh *)
  i_sh : Z;      (* the common binary scale, >= 0 *)
  i_incl : bool  (* are the bounds themselves allowed *)
}.

(** The reals that round to the float of mantissa [m] and exponent [e],
    each multiplied by [2 ^ sh] with [sh = max 0 (2 - e)]. *)
Definition rounding_interval (m : positive) (e : Z) : interval :=
  let mz := Z.pos m in
  let sh := Z.max 0 (2 - e) in
  let unit := 2 ^ (e - 2 + sh) in       (* a quarter of the last place *)
  let boundary := (mz =? 2 ^ (Float64.prec - 1)) && (Float64.emin <? e) in
  {| i_lo := if boundary then (4 * mz - 1) * unit else (4 * mz - 2) * unit;
     i_mid := 4 * mz * unit;
     i_hi := (4 * mz + 2) * unit;
     i_sh := sh;
     i_incl := Z.even mz |}.

(** Decimal positions are scaled by [10 ^ q], [q >= 0] being the number
    of decimals needed to write the value exactly. *)
Definition decimals_needed (e : Z) : Z := Z.max 0 (2 - e).

(** [shortest_from fuel p iv q]: try position [10 ^ p] (relative to the
    scale [10 ^ -q]), then the lower ones.  The result is the chosen
    decimal as an integer multiple of [10 ^ -q]. *)
Fixpoint shortest_from (fuel : nat) (p : Z) (iv : interval) (q : Z) : Z :=
  let scale := 2 ^ i_sh iv in
  let lo := i_lo iv * 10 ^ q in
  let mid := i_mid iv * 10 ^ q in
  let hi := i_hi iv * 10 ^ q in
  let step := 10 ^ p * scale in
  let down := mid / step * step in
  let up := down + step in
  let okdown := if i_incl iv then lo <=? down else lo <? down in
  let okup := if i_incl iv then up <=? hi else up <? hi in
  let exact := down =? mid in
  let nearest :=
    if mid - down <? up - mid then down
    else if up - mid <? mid - down then up
    else if Z.even (down / step) then down else up in
  let pick :=
    if exact then Some down
    else if okdown && okup then Some nearest
    else if okdown then Some down
    else if okup then Some up
    else None in
  match pick with
  | Some d => d / scale
  | None =>
      match fuel with
      | O => mid / scale
      | S fuel' => shortest_from fuel' (p - 1) iv q
      end
  end.

(** Number of decimal digits of a positive integer. *)
Definition decimal_length (z : Z) : Z :=
  Z.of_nat (String.length (FormatInt z)).

Definition shortest (m : positive) (e : Z) : Z * Z :=
  let iv := rounding_interval m e in
  let q := decimals_needed e in
  let top := decimal_length (i_hi iv * 10 ^ q / 2 ^ i_sh iv) in
  (shortest_from (Z.to_nat top) top iv q, q).

Fixpoint zeros (n : nat) : string :=
  match n with
  | O => ""
  | S n' => String "0" (zeros n')
  end.

Fixpoint strip_trailing_zeros (fuel : nat) (d : Z) (q : Z) : Z * Z :=
  match fuel with
  | O => (d, q)
  | S fuel' =>
      if (0 <? q) && (d mod 10 =? 0)
      then strip_trailing_zeros fuel' (d / 10) (q - 1)
      else (d, q)
  end.

(** [%f] with as many decimals as there are digits after the point:
    [d * 10 ^ -q], [d > 0], without trailing zeros. *)
Definition fmtF (d q : Z) : string :=
  let '(d, q) := strip_trailing_zeros (Z.to_nat q) d q in
  let int_part := d / 10 ^ q in
  let frac_part := d mod 10 ^ q in
  if q =? 0 then FormatInt int_part
  else
    let frac := FormatInt frac_part in
    FormatInt int_part +:+ "." +:+
    zeros (Z.to_nat q - String.length frac) +:+ frac.

Definition FormatFloat (f : float64) : string :=
  match Float64.canonical f with
  | S754_nan => "NaN"
  | S754_infinity false => "+Inf"
  | S754_infinity true => "-Inf"
  | S754_zero false => "0"
  | S754_zero true => "-0"
  | S754_finite s m e =>
      let '(d, q) := shortest m e in
      (if s then "-" else "") +:+ fmtF d q
  end.

End strconv.

(** The line feed, Go's ["\n"]. *)
Definition LF : string := String (ascii_of_nat 10) "".

(** [fmt.Sprintf] with a format made of [%s] verbs and literal text is
    the concatenation of the pieces; the client uses no other verb on
    the paths modelled here. *)

(** [time.Second], a [Duration] counted in nanoseconds. *)
Definition time_Second : Z := 1000000000.

(** ** [github.com/cloudfoundry/sonde-go/events]

    The envelope is a generated proto2 message: every field is a pointer
    that may be nil, and every getter is nil-safe (also on a nil
    receiver), returning the field's default when the pointer is nil.
    The fields the client never reads (the tag map and the payloads of
    the other event kinds) are left out. *)

Module events.

(** [Envelope_EventType] is an [int32] enumeration. *)
Definition Envelope_EventType : Type := Z.

Definition Envelope_HttpStart : Envelope_EventType := 2.
Definition Envelope_HttpStop : Envelope_EventType := 3.
Definition Envelope_HttpStartStop : Envelope_EventType := 4.
Definition Envelope_LogMessage : Envelope_EventType := 5.
Definition Envelope_ValueMetric : Envelope_EventType := 6.
Definition Envelope_CounterEvent : Envelope_EventType := 7.
Definition Envelope_Error : Envelope_EventType := 8.
Definition Envelope_ContainerMetric : Envelope_EventType := 9.

Record ValueMetric := mkValueMetric {
  vm_Name : option string;
  vm_Value : option float64;
  vm_Unit : option string
}.

Record CounterEvent := mkCounterEvent {
  ce_Name : option string;
  ce_Delta : option Z;
  ce_Total : option Z
}.

Record Envelope := mkEnvelope {
  env_Origin : option string;
  env_EventType : option Envelope_EventType;
  env_Timestamp : option Z;
  env_Deployment : option string;
  env_Job : option string;
  env_Index : option string;
  env_Ip : option string;
  env_ValueMetric : option ValueMetric;
  env_CounterEvent : option CounterEvent
}.

(** A [*T] getter: the field of a non-nil receiver, if set. *)
Definition field {T A} (f : T -> option A) (m : option T) : option A :=
  match m with
  | Some x => f x
  | None => None
  end.

Definition GetOrigin (m : option Envelope) : string :=
  default "" (field env_Origin m).

(** The default of the enumeration is its first value. *)
Definition GetEventType (m : option Envelope) : Envelope_EventType :=
  match field env_EventType m with
  | Some t => Int.int32 t
  | None => Envelope_HttpStart
  end.

Definition GetTimestamp (m : option Envelope) : Z :=
  match field env_Timestamp m with
  | Some t => Int.int64 t
  | None => 0
  end.

Definition GetDeployment (m : option Envelope) : string :=
  default "" (field env_Deployment m).

Definition GetJob (m : option Envelope) : string :=
  default "" (field env_Job m).

Definition GetIndex (m : option Envelope) : string :=
  default "" (field env_Index m).

Definition GetIp (m : option Envelope) : string :=
  default "" (field env_Ip m).

Definition GetValueMetric (m : option Envelope) : option ValueMetric :=
  field env_ValueMetric m.

Definition GetCounterEvent (m : option Envelope) : option CounterEvent :=
  field env_CounterEvent m.

Definition ValueMetric_GetName (m : option ValueMetric) : string :=
  default "" (field vm_Name m).

Definition ValueMetric_GetValue (m : option ValueMetric) : float64 :=
  match field vm_Value m with
  | Some v => Float64.canonical v
  | None => S754_zero false
  end.

Definition CounterEvent_GetName (m : option CounterEvent) : string :=
  default "" (field ce_Name m).

Definition CounterEvent_GetTotal (m : option CounterEvent) : Z :=
  match field ce_Total m with
  | Some t => Int.uint64 t
  | None => 0
  end.

End events.

(** ** [net/http], as far as [PostMetrics] uses it *)

Module http.

Record Request := mkRequest {
  Method : string;
  URL : string;
  Body : string
}.

Record Response := mkResponse {
  StatusCode : Z;
  Status : string
}.

(** What [DefaultClient.Do] gives back: an error or a response. *)
Inductive RoundTrip :=
| Failed (err : string)
| Answered (resp : Response).

End http.

(** ** The client's data *)

Record metricKey := mkKey {
  eventType : events.Envelope_EventType;
  name : string;
  deployment : string;
  job : string;
  index : string;
  ip : string
}.

Record Point := mkPoint {
  Timestamp : Z;      (* int64, seconds *)
  Value : float64
}.

Record metricValue := mkValue {
  tags : list string;
  points : list Point
}.

#[global] Instance metricKey_eq_dec : EqDecision metricKey.
Proof. solve_decision. Defined.

#[global] Instance metricKey_countable : Countable metricKey.
Proof.
  apply (inj_countable'
    (fun k => (eventType k, name k, deployment k, job k, index k, ip k))
    (fun t => let '(e, n, d, j, i, a) := t in mkKey e n d j i a)).
  intros []; reflexivity.
Defined.

Record Client := mkClient {
  url : string;
  database : string;
  user : string;
  password : string;
  metricPoints : gmap metricKey metricValue;
  prefix : string;
  c_deployment : string;       (* the field [deployment] *)
  c_ip : string;               (* the field [ip] *)
  totalMessagesReceived : Z;   (* uint64 *)
  totalMetricsSent : Z         (* uint64 *)
}.

Definition set_metricPoints (m : gmap metricKey metricValue) (c : Client) : Client :=
  mkClient (url c) (database c) (user c) (password c) m (prefix c)
           (c_deployment c) (c_ip c) (totalMessagesReceived c) (totalMetricsSent c).

Definition set_totalMessagesReceived (n : Z) (c : Client) : Client :=
  mkClient (url c) (database c) (user c) (password c) (metricPoints c) (prefix c)
           (c_deployment c) (c_ip c) n (totalMetricsSent c).

Definition set_totalMetricsSent (n : Z) (c : Client) : Client :=
  mkClient (url c) (database c) (user c) (password c) (metricPoints c) (prefix c)
           (c_deployment c) (c_ip c) (totalMessagesReceived c) n.

(** The zero value of [metricValue], read from the map at a missing key. *)
Definition zero_metricValue : metricValue := mkValue [] [].

(** ** The world around the client

    [range] over a Go map visits every entry once, in an order the
    runtime picks afresh each time. *)
Record RangeOrder := mkRangeOrder {
  visit : gmap metricKey metricValue -> list (metricKey * metricValue);
  visit_perm : forall m, visit m ≡ₚ map_to_list m
}.

(** The world is a logical clock [tick] that every interaction advances,
    the answers the surroundings give at each tick, and the log of the
    requests that went out. *)
Record World := mkWorld {
  now_unix : nat -> Z;
  range_order : nat -> RangeOrder;
  url_parses : string -> bool;
  server : nat -> http.Request -> http.RoundTrip;
  tick : nat;
  sent : list http.Request
}.

Definition advance (w : World) : World :=
  mkWorld (now_unix w) (range_order w) (url_parses w) (server w)
          (S (tick w)) (sent w).

Definition record_request (r : http.Request) (w : World) : World :=
  mkWorld (now_unix w) (range_order w) (url_parses w) (server w)
          (tick w) (r :: sent w).

(** ** Computations: state, world and panics *)

Inductive outcome (A : Type) : Type :=
| Returns (a : A)
| Panics (msg : string).
Arguments Returns {A} a.
Arguments Panics {A} msg.

Definition state : Type := Client * World.

Definition M (A : Type) : Type := state -> outcome A * state.

#[global] Instance M_ret : MRet M := fun A a s => (Returns a, s).

#[global] Instance M_bind : MBind M := fun A B f m s =>
  match m s with
  | (Returns a, s') => f a s'
  | (Panics msg, s') => (Panics msg, s')
  end.

Definition panic {A} (msg : string) : M A := fun s => (Panics msg, s).

Definition lift {A} (o : outcome A) : M A := fun s => (o, s).

Definition get_client : M Client := fun s => (Returns (fst s), s).

Definition modify_client (f : Client -> Client) : M unit :=
  fun s => (Returns tt, (f (fst s), snd s)).

(** [time.Now().Unix()]. *)
Definition time_Now_Unix : M Z :=
  fun s => let w := snd s in
           (Returns (Int.int64 (now_unix w (tick w))), (fst s, advance w)).

(** The entries of a map in the order [range] visits them. *)
Definition range_map (m : gmap metricKey metricValue) : M (list (metricKey * metricValue)) :=
  fun s => let w := snd s in
           (Returns (visit (range_order w (tick w)) m), (fst s, advance w)).

(** [http.NewRequest]: nil and an error when the URL does not parse. *)
Definition http_NewRequest (method url : string) (body : string)
  : M (option http.Request * option string) :=
  fun s => if url_parses (snd s) url
           then (Returns (Some (http.mkRequest method url body), None), s)
           else (Returns (None, Some "parse error"), s).

(** [http.DefaultClient.Do]: a nil request is dereferenced. *)
Definition http_Do (req : option http.Request)
  : M (option http.Response * option string) :=
  match req with
  | None => panic "invalid memory address or nil pointer dereference"
  | Some r =>
      fun s => let w := snd s in
               let w' := advance (record_request r w) in
               match server w (tick w) r with
               | http.Failed err => (Returns (None, Some err), (fst s, w'))
               | http.Answered resp => (Returns (Some resp, None), (fst s, w'))
               end
  end.

(** ** The client *)

Definition New (url database user password prefix deployment ip : string) : Client :=
  {| url := url;
     database := database;
     user := user;
     password := password;
     metricPoints := ∅;
     prefix := prefix;
     c_deployment := deployment;
     c_ip := ip;
     totalMessagesReceived := 0;
     totalMetricsSent := 0 |}.

Definition addInternalMetric (name : string) (value : Z) : M unit :=
  c ← get_client;
  let key := {| eventType := 0;
                name := name;
                deployment := c_deployment c;
                job := "";
                index := "";
                ip := c_ip c |} in
  now ← time_Now_Unix;
  let point := {| Timestamp := now; Value := float64_of_uint64 value |} in
  let mValue := {| tags := [ "ip=" +:+ c_ip c;
                             "deployment=" +:+ c_deployment c ];
                   points := [ point ] |} in
  modify_client (fun c => set_metricPoints (<[ key := mValue ]> (metricPoints c)) c).

Definition AlertSlowConsumerError : M unit :=
  addInternalMetric "slowConsumerAlert" 1.

Definition getName (envelope : option events.Envelope) : outcome string :=
  let t := events.GetEventType envelope in
  if decide (t = events.Envelope_ValueMetric) then
    Returns (events.GetOrigin envelope +:+ "." +:+
             events.ValueMetric_GetName (events.GetValueMetric envelope))
  else if decide (t = events.Envelope_CounterEvent) then
    Returns (events.GetOrigin envelope +:+ "." +:+
             events.CounterEvent_GetName (events.GetCounterEvent envelope))
  else Panics "Unknown event type".

Definition getValue (envelope : option events.Envelope) : outcome float64 :=
  let t := events.GetEventType envelope in
  if decide (t = events.Envelope_ValueMetric) then
    Returns (events.ValueMetric_GetValue (events.GetValueMetric envelope))
  else if decide (t = events.Envelope_CounterEvent) then
    Returns (float64_of_uint64
               (events.CounterEvent_GetTotal (events.GetCounterEvent envelope)))
  else Panics "Unknown event type".

Definition appendTagIfNotEmpty (tags : list string) (key value : string) : list string :=
  if decide (value ≠ "") then tags ++ [ key +:+ "=" +:+ value ] else tags.

Definition getTags (envelope : option events.Envelope) : list string :=
  let tags := [] in
  let tags := appendTagIfNotEmpty tags "deployment" (events.GetDeployment envelope) in
  let tags := appendTagIfNotEmpty tags "job" (events.GetJob envelope) in
  let tags := appendTagIfNotEmpty tags "index" (events.GetIndex envelope) in
  let tags := appendTagIfNotEmpty tags "ip" (events.GetIp envelope) in
  tags.

Definition AddMetric (envelope : option events.Envelope) : M unit :=
  modify_client (fun c =>
    set_totalMessagesReceived (Int.add_u64 (totalMessagesReceived c) 1) c) ;;
  if decide (events.GetEventType envelope ≠ events.Envelope_ValueMetric
             ∧ events.GetEventType envelope ≠ events.Envelope_CounterEvent)
  then mret tt
  else
    name ← lift (getName envelope);
    let key := {| eventType := events.GetEventType envelope;
                  name := name;
                  deployment := events.GetDeployment envelope;
                  job := events.GetJob envelope;
                  index := events.GetIndex envelope;
                  ip := events.GetIp envelope |} in
    c ← get_client;
    let mVal := default zero_metricValue (metricPoints c !! key) in
    value ← lift (getValue envelope);
    let mVal :=
      {| tags := getTags envelope;
         points := points mVal ++
                   [ {| Timestamp := Int.quot64 (events.GetTimestamp envelope) time_Second;
                        Value := value |} ] |} in
    modify_client (fun c => set_metricPoints (<[ key := mVal ]> (metricPoints c)) c).

(** The [log.Print] calls of [seriesURL] and [PostMetrics] write to the
    process log only and are left out. *)
Definition seriesURL (c : Client) : string :=
  url c +:+ "/write?db=" +:+ database c.

Definition containsSlowConsumerAlert (c : Client) : bool :=
  let key := {| eventType := 0;
                name := "slowConsumerAlert";
                deployment := c_deployment c;
                job := "";
                index := "";
                ip := c_ip c |} in
  match metricPoints c !! key with
  | Some _ => true
  | None => false
  end.

Definition populateInternalMetrics : M unit :=
  c ← get_client;
  addInternalMetric "totalMessagesReceived" (totalMessagesReceived c) ;;
  c ← get_client;
  addInternalMetric "totalMetricsSent" (totalMetricsSent c) ;;
  c ← get_client;
  if negb (containsSlowConsumerAlert c)
  then addInternalMetric "slowConsumerAlert" 0
  else mret tt.

(** The loop of [formatTags]: [idx] is the loop index, [newTags] the
    string built so far. *)
Fixpoint formatTags_loop (idx : nat) (tags : list string) (newTags : string) : string :=
  match tags with
  | [] => newTags
  | tag :: rest =>
      let newTags := if (0 <? idx)%nat then newTags +:+ "," else newTags in
      formatTags_loop (S idx) rest (newTags +:+ tag)
  end.

Definition formatTags (tags : list string) : string :=
  formatTags_loop 0 tags "".

Fixpoint formatValues_loop (idx : nat) (points : list Point) (newPoints : string) : string :=
  match points with
  | [] => newPoints
  | point :: rest =>
      let newPoints := if (0 <? idx)%nat then newPoints +:+ "," else newPoints in
      formatValues_loop (S idx) rest
        (newPoints +:+ ("value=" +:+ strconv.FormatFloat (Value point)))
  end.

Definition formatValues (points : list Point) : string :=
  formatValues_loop 0 points "".

(** [t * 1000 * 1000 * 1000] on [int64]. *)
Definition seconds_to_nanos (t : Z) : Z :=
  Int.mul64 (Int.mul64 (Int.mul64 t 1000) 1000) 1000.

Definition formatTimestamp (points : list Point) : M string :=
  match points with
  | p0 :: _ => mret (strconv.FormatInt (seconds_to_nanos (Timestamp p0)))
  | [] =>
      now ← time_Now_Unix;
      mret (strconv.FormatInt (seconds_to_nanos now))
  end.

(** The body of the [range] loop of [formatMetrics], over the entries in
    the order they are visited; [buffer] is what was written so far. *)
Fixpoint formatMetrics_loop (prefix : string)
    (entries : list (metricKey * metricValue)) (buffer : string) : M string :=
  match entries with
  | [] => mret buffer
  | (key, mVal) :: rest =>
      let buffer := buffer +:+ (prefix +:+ name key) in
      let buffer := buffer +:+ "," in
      let buffer := buffer +:+ formatTags (tags mVal) in
      let buffer := buffer +:+ " " in
      let buffer := buffer +:+ formatValues (points mVal) in
      let buffer := buffer +:+ " " in
      timestamp ← formatTimestamp (points mVal);
      let buffer := buffer +:+ timestamp in
      let buffer := buffer +:+ LF in
      formatMetrics_loop prefix rest buffer
  end.

Definition formatMetrics : M (string * Z) :=
  c ← get_client;
  entries ← range_map (metricPoints c);
  buffer ← formatMetrics_loop (prefix c) entries "";
  mret (buffer, Z.of_nat (size (metricPoints c))).

(** [PostMetrics] returns Go's [error]: [None] is nil. *)
Definition PostMetrics : M (option string) :=
  c ← get_client;
  let url := seriesURL c in
  populateInternalMetrics ;;
  '(seriesBytes, metricsCount) ← formatMetrics;
  '(req, _) ← http_NewRequest "POST" url seriesBytes;
  '(resp, err) ← http_Do req;
  match err, resp with
  | Some e, _ => mret (Some e)
  | None, None => panic "invalid memory address or nil pointer dereference"
  | None, Some resp =>
      if (300 <=? http.StatusCode resp) || (http.StatusCode resp <? 200)
      then mret (Some ("InfluxDB request returned HTTP response: " +:+ http.Status resp))
      else
        modify_client (fun c =>
          set_totalMetricsSent (Int.add_u64 (totalMetricsSent c) metricsCount) c) ;;
        modify_client (set_metricPoints ∅) ;;
        mret None
  end.

(** ** Running the client

    The operations a caller can perform, one after the other.  A flush
    that ends a window is one that returns nil. *)

Inductive Op :=
| Ingest (envelope : option events.Envelope)
| RecordAlert
| Snapshot
| Flush.

Definition step (op : Op) : M (option string) :=
  match op with
  | Ingest envelope => AddMetric envelope ;; mret None
  | RecordAlert => AlertSlowConsumerError ;; mret None
  | Snapshot => populateInternalMetrics ;; mret None
  | Flush => PostMetrics
  end.

(** Was [AlertSlowConsumerError] called since the last successful flush? *)
Definition window_alert (op : Op) (r : outcome (option string)) (alerted : bool) : bool :=
  match op, r with
  | RecordAlert, _ => true
  | Flush, Returns None => false
  | _, _ => alerted
  end.

(** [run ops s alerted]: the state after the operations [ops], together
    with the alert flag of the window.  A panic does not stop the run:
    the caller may recover from it and carry on. *)
Fixpoint run (ops : list Op) (s : state) (alerted : bool) : state * bool :=
  match ops with
  | [] => (s, alerted)
  | op :: rest =>
      let '(r, s') := step op s in
      run rest s' (window_alert op r alerted)
  end.

(** ** Notions used to state the properties *)

(** *** Ingest *)

(** The kinds of envelope that [AddMetric] turns into a point. *)
Definition supported (envelope : option events.Envelope) : Prop :=
  events.GetEventType envelope = events.Envelope_ValueMetric
  ∨ events.GetEventType envelope = events.Envelope_CounterEvent.

#[global] Instance supported_dec envelope : Decision (supported envelope).
Proof. unfold supported. apply _. Defined.

(** The metric name of the payload that goes with the envelope's kind. *)
Definition payload_name (envelope : option events.Envelope) : string :=
  if decide (events.GetEventType envelope = events.Envelope_ValueMetric)
  then events.ValueMetric_GetName (events.GetValueMetric envelope)
  else events.CounterEvent_GetName (events.GetCounterEvent envelope).

Definition payload_value (envelope : option events.Envelope) : float64 :=
  if decide (events.GetEventType envelope = events.Envelope_ValueMetric)
  then events.ValueMetric_GetValue (events.GetValueMetric envelope)
  else float64_of_uint64 (events.CounterEvent_GetTotal (events.GetCounterEvent envelope)).

Definition derived_name (envelope : option events.Envelope) : string :=
  events.GetOrigin envelope +:+ "." +:+ payload_name envelope.

(** The six identity fields of an envelope. *)
Definition identity (envelope : option events.Envelope) : metricKey :=
  {| eventType := events.GetEventType envelope;
     name := derived_name envelope;
     deployment := events.GetDeployment envelope;
     job := events.GetJob envelope;
     index := events.GetIndex envelope;
     ip := events.GetIp envelope |}.

Definition observation (envelope : option events.Envelope) : Point :=
  {| Timestamp := Int.quot64 (events.GetTimestamp envelope) time_Second;
     Value := payload_value envelope |}.

(** The envelope lacks the payload that goes with its kind. *)
Definition lacks_payload (envelope : option events.Envelope) : Prop :=
  (events.GetEventType envelope = events.Envelope_ValueMetric
   ∧ events.GetValueMetric envelope = None)
  ∨ (events.GetEventType envelope = events.Envelope_CounterEvent
     ∧ events.GetCounterEvent envelope = None).

(** The client after [AddMetric envelope], as a function of the client
    before (see [AddMetric_ingest]). *)
Definition ingest (envelope : option events.Envelope) (c : Client) : Client :=
  let c1 := set_totalMessagesReceived (Int.add_u64 (totalMessagesReceived c) 1) c in
  if decide (supported envelope) then
    let old := default zero_metricValue (metricPoints c !! identity envelope) in
    set_metricPoints
      (<[ identity envelope :=
            {| tags := getTags envelope;
               points := points old ++ [ observation envelope ] |} ]> (metricPoints c))
      c1
  else c1.

(** [AddMetric] on each envelope of a sequence, in order. *)
Fixpoint AddMetrics (envelopes : list (option events.Envelope)) : M unit :=
  match envelopes with
  | [] => mret tt
  | envelope :: rest => AddMetric envelope ;; AddMetrics rest
  end.

(** The envelope produces a point for the entry of key [k]. *)
Definition feeds (k : metricKey) (envelope : option events.Envelope) : Prop :=
  supported envelope ∧ identity envelope = k.

#[global] Instance feeds_dec k envelope : Decision (feeds k envelope).
Proof. unfold feeds. apply _. Defined.

(** The tags a data envelope gives rise to: one per non-empty field, in
    the order deployment, job, index, ip. *)
Definition derived_tags (envelope : option events.Envelope) : list string :=
  map (fun kv => kv.1 +:+ "=" +:+ kv.2)
    (filter (fun kv => kv.2 ≠ "")
       [ ("deployment", events.GetDeployment envelope);
         ("job", events.GetJob envelope);
         ("index", events.GetIndex envelope);
         ("ip", events.GetIp envelope) ]).

(** The entry of a key after the envelopes [fed] were added to it, [old]
    being what the map held before. *)
Definition entry_after (old : option metricValue)
    (fed : list (option events.Envelope)) : option metricValue :=
  match list.last fed with
  | None => old
  | Some envelope =>
      Some {| tags := getTags envelope;
              points := points (default zero_metricValue old) ++ map observation fed |}
  end.

(** *** Internal metrics *)

(** The key and the entry of an internal metric. *)
Definition internal_key (c : Client) (name : string) : metricKey :=
  {| eventType := 0;
     name := name;
     deployment := c_deployment c;
     job := "";
     index := "";
     ip := c_ip c |}.

Definition internal_entry (c : Client) (now : Z) (value : Z) : metricValue :=
  {| tags := [ "ip=" +:+ c_ip c; "deployment=" +:+ c_deployment c ];
     points := [ {| Timestamp := now; Value := float64_of_uint64 value |} ] |}.

(** The client after [addInternalMetric name value] at clock reading [now]. *)
Definition with_internal (name : string) (now value : Z) (c : Client) : Client :=
  set_metricPoints (<[ internal_key c name := internal_entry c now value ]> (metricPoints c)) c.

(** The reading of the clock in world [w]. *)
Definition reading (w : World) : Z := Int.int64 (now_unix w (tick w)).

(** The state after [populateInternalMetrics]. *)
Definition snapshot (s : state) : state := snd (populateInternalMetrics s).

(** The keys of the three internal metrics. *)
Definition received_key (c : Client) : metricKey := internal_key c "totalMessagesReceived".
Definition sent_key (c : Client) : metricKey := internal_key c "totalMetricsSent".
Definition alert_key (c : Client) : metricKey := internal_key c "slowConsumerAlert".

(** The three internal entries a snapshot taken in world [w] writes. *)
Definition received_entry (c : Client) (w : World) : metricValue :=
  internal_entry c (reading w) (totalMessagesReceived c).
Definition sent_entry (c : Client) (w : World) : metricValue :=
  internal_entry c (reading (advance w)) (totalMetricsSent c).
Definition healthy_entry (c : Client) (w : World) : metricValue :=
  internal_entry c (reading (advance (advance w))) 0.

(** The key an ingested metric would have if it were named like the
    alert and came from the client's own deployment and address. *)
Definition lookalike_key (c : Client) (t : events.Envelope_EventType)
    (job index : string) : metricKey :=
  {| eventType := t;
     name := "slowConsumerAlert";
     deployment := c_deployment c;
     job := job;
     index := index;
     ip := c_ip c |}.

(** [c'] was made by the same call of [New] as [c]. *)
Definition same_config (c c' : Client) : Prop :=
  url c' = url c ∧ database c' = database c ∧ prefix c' = prefix c
  ∧ c_deployment c' = c_deployment c ∧ c_ip c' = c_ip c.

(** *** The serializer *)

(** The fields of a line, one per point. *)
Definition value_fields (points : list Point) : list string :=
  map (fun p => "value=" +:+ strconv.FormatFloat (Value p)) points.

(** One line of the batch, given the text of its timestamp. *)
Definition line (prefix : string) (key : metricKey) (mVal : metricValue)
    (timestamp : string) : string :=
  prefix +:+ name key +:+ "," +:+ String.concat "," (tags mVal) +:+ " " +:+
  String.concat "," (value_fields (points mVal)) +:+
  " " +:+ timestamp +:+ LF.

Definition join_lines (lines : list string) : string :=
  foldr String.append "" lines.

Definition first_timestamp (points : list Point) (fallback : Z) : Z :=
  match points with
  | p0 :: _ => Timestamp p0
  | [] => fallback
  end.

(** The lines [formatMetrics] writes for [entries], visited in this
    order from world [w], and the world afterwards: the clock is read
    for an entry without points, and only for such an entry. *)
Fixpoint lines_of (prefix : string) (entries : list (metricKey * metricValue))
    (w : World) : list string * World :=
  match entries with
  | [] => ([], w)
  | (key, mVal) :: rest =>
      let timestamp :=
        strconv.FormatInt (seconds_to_nanos (first_timestamp (points mVal) (reading w))) in
      let w1 := match points mVal with [] => advance w | _ :: _ => w end in
      let '(lines, w2) := lines_of prefix rest w1 in
      (line prefix key mVal timestamp :: lines, w2)
  end.

Definition is_line_of (prefix : string) (entry : metricKey * metricValue)
    (ln : string) : Prop :=
  ∃ timestamp,
    ln = line prefix entry.1 entry.2 timestamp
    ∧ ∀ p0 rest, points entry.2 = p0 :: rest →
        timestamp = strconv.FormatInt (seconds_to_nanos (Timestamp p0)).

Definition entry_line (prefix : string) (entry : metricKey * metricValue) : string :=
  line prefix entry.1 entry.2
    (strconv.FormatInt (seconds_to_nanos (first_timestamp (points entry.2) 0))).

(** *** The flush *)

(** What [PostMetrics] serializes: the batch and its record count, and
    the state once they are computed. *)
Definition batch : M (string * Z) :=
  populateInternalMetrics ;; formatMetrics.

(** The transport failed: a network error or a status outside 2xx. *)
Definition failed (rt : http.RoundTrip) : Prop :=
  match rt with
  | http.Failed _ => True
  | http.Answered resp => 300 <= http.StatusCode resp ∨ http.StatusCode resp < 200
  end.

Definition succeeded (rt : http.RoundTrip) : Prop :=
  match rt with
  | http.Failed _ => False
  | http.Answered resp => 200 <= http.StatusCode resp < 300
  end.

(** The request a flush started in state [s] hands to the transport, if
    it can be built, and what the transport answers. *)
Definition flush_request (s : state) : option http.Request :=
  match batch s with
  | (Returns (body, _), (_, w1)) =>
      if url_parses w1 (seriesURL s.1)
      then Some (http.mkRequest "POST" (seriesURL s.1) body)
      else None
  | (Panics _, _) => None
  end.

Definition transport_answer (s : state) : option http.RoundTrip :=
  match flush_request s with
  | Some req => let w1 := (batch s).2.2 in Some (server w1 (tick w1) req)
  | None => None
  end.

(** *** Invariants of a run *)

(** The alert entry agrees with the alert flag of the window: it holds
    the value 1 when an alert was recorded, and otherwise it is missing
    or holds the healthy default 0. *)
Definition alert_inv (c : Client) (alerted : bool) : Prop :=
  match metricPoints c !! alert_key c with
  | Some v => ∃ t, v = internal_entry c t (if alerted then 1 else 0)
  | None => alerted = false
  end.

(** Every entry of the mapping has a point. *)
Definition all_have_points (c : Client) : Prop :=
  map_Forall (fun _ v => points v ≠ []) (metricPoints c).

(** *** Data for the examples *)

(** A world in which nothing happens: the clock stands at [t], maps are
    visited in their canonical order, every URL parses and the server
    answers with [answer]. *)
Definition canonical_order : RangeOrder :=
  {| visit := map_to_list;
     visit_perm := fun m => reflexivity (map_to_list m) |}.

Definition still_world (t : Z) (answer : http.RoundTrip) : World :=
  {| now_unix := fun _ => t;
     range_order := fun _ => canonical_order;
     url_parses := fun _ => true;
     server := fun _ _ => answer;
     tick := 0;
     sent := [] |}.

(** A client holding one entry, for the examples. *)
Definition single_entry_client : Client :=
  set_metricPoints
    {[ mkKey events.Envelope_ValueMetric "name" "prod" "" "" "1.2.3.4" :=
         {| tags := [ "ip=1.2.3.4"; "deployment=prod" ];
            points := [ {| Timestamp := 1000; Value := float_3_5 |} ] |} ]}
    (New "http://influx:8086" "metrics" "" "" "app." "prod" "1.2.3.4").

(** Envelopes for the examples. *)
Definition value_envelope (origin metric deployment job index ip : string)
    (nanos : Z) (value : float64) : option events.Envelope :=
  Some {| events.env_Origin := Some origin;
          events.env_EventType := Some events.Envelope_ValueMetric;
          events.env_Timestamp := Some nanos;
          events.env_Deployment := Some deployment;
          events.env_Job := Some job;
          events.env_Index := Some index;
          events.env_Ip := Some ip;
          events.env_ValueMetric :=
            Some {| events.vm_Name := Some metric;
                    events.vm_Value := Some value;
                    events.vm_Unit := None |};
          events.env_CounterEvent := None |}.

Definition example_client : Client :=
  New "http://influx:8086" "metrics" "" "" "app." "prod" "1.2.3.4".

Definition cpu_envelope (job : string) (nanos : Z) (value : float64)
  : option events.Envelope :=
  value_envelope "router" "cpu" "prod" job "0" "10.0.0.1" nanos value.

(** A value-metric envelope that carries no payload at all. *)
Definition bare_envelope : option events.Envelope :=
  Some {| events.env_Origin := Some "router";
          events.env_EventType := Some events.Envelope_ValueMetric;
          events.env_Timestamp := Some 1500000000;
          events.env_Deployment := Some "prod";
          events.env_Job := Some "web";
          events.env_Index := Some "0";
          events.env_Ip := Some "10.0.0.1";
          events.env_ValueMetric := None;
          events.env_CounterEvent := None |}.

(** *** Counting *)

(** The number of points held by a mapping, over all its entries. *)
Definition total_points (m : gmap metricKey metricValue) : nat :=
  map_fold (fun _ v n => (length (points v) + n)%nat) 0%nat m.

(** The client after [AddMetric] on each envelope of a sequence. *)
Definition ingest_all (envelopes : list (option events.Envelope)) (c : Client) : Client :=
  foldl (fun c envelope => ingest envelope c) c envelopes.

(** An envelope of a kind the client does not aggregate. *)
Definition log_envelope : option events.Envelope :=
  Some {| events.env_Origin := Some "router";
          events.env_EventType := Some events.Envelope_LogMessage;
          events.env_Timestamp := Some 1500000000;
          events.env_Deployment := Some "prod";
          events.env_Job := Some "web";
          events.env_Index := Some "0";
          events.env_Ip := Some "10.0.0.1";
          events.env_ValueMetric := None;
          events.env_CounterEvent := None |}.

(** *** Well-formed entries *)

(** The tags that go with a key: those [getTags] derives from an
    envelope with the key's deployment, job, index and address. *)
Definition key_tags (k : metricKey) : list string :=
  let tags := [] in
  let tags := appendTagIfNotEmpty tags "deployment" (deployment k) in
  let tags := appendTagIfNotEmpty tags "job" (job k) in
  let tags := appendTagIfNotEmpty tags "index" (index k) in
  let tags := appendTagIfNotEmpty tags "ip" (ip k) in
  tags.

(** An entry as the client's own operations make it: either one of the
    three internal metrics with its single point, or the entry of an
    ingested identity with the tags of its key and at least one point. *)
Definition entry_inv (c : Client) (k : metricKey) (v : metricValue) : Prop :=
  (k ∈ [ received_key c; sent_key c; alert_key c ]
   ∧ ∃ t n, v = internal_entry c t n)
  ∨ ((eventType k = events.Envelope_ValueMetric
      ∨ eventType k = events.Envelope_CounterEvent)
     ∧ tags v = key_tags k
     ∧ points v ≠ []
     ∧ Forall (fun p => Int.in_int64 (Timestamp p)) (points v)).

Definition well_formed (c : Client) : Prop :=
  map_Forall (entry_inv c) (metricPoints c).

(** *** Credentials and requests *)

(** The client with other credentials. *)
Definition with_credentials (u p : string) (c : Client) : Client :=
  mkClient (url c) (database c) u p (metricPoints c) (prefix c)
           (c_deployment c) (c_ip c) (totalMessagesReceived c) (totalMetricsSent c).

#[global] Instance Op_flush_dec (op : Op) : Decision (op = Flush).
Proof. destruct op; [right | right | right | left]; congruence. Defined.

(** The number of flushes among the operations. *)
Definition flushes (ops : list Op) : nat :=
  length (filter (fun op => op = Flush) ops).

(** *** Entries without points *)

Definition pointless (entry : metricKey * metricValue) : Prop :=
  points entry.2 = [].

#[global] Instance pointless_dec entry : Decision (pointless entry).
Proof. unfold pointless. apply _. Defined.

(** *** Counting operations *)

#[global] Instance Op_ingest_dec (op : Op) : Decision (∃ envelope, op = Ingest envelope).
Proof.
  destruct op as [envelope | | |];
    [left; eauto | right | right | right]; intros [e He]; discriminate.
Defined.

(** The number of ingests among the operations. *)
Definition ingests (ops : list Op) : nat :=
  length (filter (fun op => ∃ envelope, op = Ingest envelope) ops).

(** * Properties *)

(** ** Machine numbers *)

Lemma int64_in_range (z : Z) : Int.in_int64 (Int.int64 z).
Proof.
  unfold Int.in_int64, Int.int64, Int.wrap_signed, Int.min_int64, Int.max_int64.
  pose proof (Z.mod_pos_bound (z + 2 ^ (64 - 1)) (2 ^ 64) ltac:(lia)). lia.
Qed.

Lemma int64_id (z : Z) : Int.in_int64 z → Int.int64 z = z.
Proof.
  unfold Int.in_int64, Int.int64, Int.wrap_signed, Int.min_int64, Int.max_int64.
  intros H. rewrite Z.mod_small by lia. lia.
Qed.

Lemma uint64_in_range (z : Z) : Int.in_uint64 (Int.uint64 z).
Proof.
  unfold Int.in_uint64, Int.uint64, Int.wrap_unsigned, Int.max_uint64.
  pose proof (Z.mod_pos_bound z (2 ^ 64) ltac:(lia)). lia.
Qed.

Lemma uint64_id (z : Z) : Int.in_uint64 z → Int.uint64 z = z.
Proof.
  unfold Int.in_uint64, Int.uint64, Int.wrap_unsigned, Int.max_uint64.
  intros H. apply Z.mod_small. lia.
Qed.

Lemma quot_second_bounds (nanos : Z) :
  Int.in_int64 nanos →
  - 9223372036 <= Z.quot nanos time_Second <= 9223372036.
Proof.
  unfold Int.in_int64, Int.min_int64, Int.max_int64, time_Second. intros H.
  pose proof (Z.quot_rem' nanos 1000000000) as Hqr.
  pose proof (Z.rem_bound_abs nanos 1000000000 ltac:(lia)) as Hr.
  assert (Hcase : 0 <= nanos ∨ nanos <= 0) by lia.
  destruct Hcase.
  - pose proof (Z.rem_nonneg nanos 1000000000 ltac:(lia) ltac:(lia)). lia.
  - pose proof (Z.rem_nonpos nanos 1000000000 ltac:(lia) ltac:(lia)). lia.
Qed.

(** Whole seconds cut from an [int64] count of nanoseconds turn back
    into nanoseconds without overflow. *)
Lemma seconds_to_nanos_no_overflow (nanos : Z) :
  Int.in_int64 nanos →
  seconds_to_nanos (Int.quot64 nanos time_Second) =
  Z.quot nanos time_Second * 1000000000.
Proof.
  intros H. pose proof (quot_second_bounds nanos H) as Hq.
  unfold seconds_to_nanos, Int.quot64, Int.mul64.
  set (q := Z.quot nanos time_Second) in *.
  assert (Hid : ∀ z, - 2 ^ 63 <= z <= 2 ^ 63 - 1 → Int.int64 z = z)
    by (intros z Hz; now apply int64_id).
  rewrite (Hid q) by lia.
  rewrite (Hid (q * 1000)) by lia.
  rewrite (Hid (q * 1000 * 1000)) by lia.
  rewrite (Hid (q * 1000 * 1000 * 1000)) by lia.
  lia.
Qed.

(** [strconv.FormatFloat(f, 'f', -1, 64)] on a few familiar values. *)
Example FormatFloat_3_5 : strconv.FormatFloat float_3_5 = "3.5".
Proof. vm_compute. reflexivity. Qed.

Example FormatFloat_one_tenth :
  strconv.FormatFloat (S754_finite false 3602879701896397 (-55)) = "0.1".
Proof. vm_compute. reflexivity. Qed.

Example FormatFloat_max_uint64 :
  strconv.FormatFloat (float64_of_uint64 Int.max_uint64) = "18446744073709552000".
Proof. vm_compute. reflexivity. Qed.

(** A [spec_float] that is not canonical is formatted as the [float64]
    it stands for. *)
Example FormatFloat_not_canonical :
  strconv.FormatFloat (S754_finite false 7 (-1)) = "3.5".
Proof. vm_compute. reflexivity. Qed.

(** ** Strings *)

Lemma append_empty_l (a : string) : "" +:+ a = a.
Proof. reflexivity. Qed.

Lemma append_cons (x : ascii) (a b : string) :
  String x a +:+ b = String x (a +:+ b).
Proof. reflexivity. Qed.

Lemma append_assoc (a b c : string) : (a +:+ b) +:+ c = a +:+ (b +:+ c).
Proof.
  induction a as [| x a IH]; [reflexivity |].
  now rewrite !append_cons, IH.
Qed.

Lemma append_empty_r (a : string) : a +:+ "" = a.
Proof.
  induction a as [| x a IH]; [reflexivity |].
  now rewrite append_cons, IH.
Qed.

Lemma concat_cons (sep x : string) (l : list string) :
  String.concat sep (x :: l) = x +:+ foldr (fun t r => sep +:+ t +:+ r) "" l.
Proof.
  revert x. induction l as [| y l IH]; intros x.
  - cbn [String.concat foldr]. now rewrite append_empty_r.
  - change (String.concat sep (x :: y :: l))
      with (x +:+ sep +:+ String.concat sep (y :: l)).
    rewrite IH. reflexivity.
Qed.

Lemma join_lines_app (l1 l2 : list string) :
  join_lines (l1 ++ l2) = join_lines l1 +:+ join_lines l2.
Proof.
  unfold join_lines. induction l1 as [| x l1 IH]; [reflexivity |].
  cbn [app foldr]. now rewrite IH, append_assoc.
Qed.

(** ** The loops of [formatTags] and [formatValues] are joins *)

Lemma formatTags_loop_tail (idx : nat) (tags : list string) (acc : string) :
  formatTags_loop (S idx) tags acc = acc +:+ foldr (fun t r => "," +:+ t +:+ r) "" tags.
Proof.
  revert idx acc. induction tags as [| t tags IH]; intros idx acc.
  - cbn [formatTags_loop foldr]. now rewrite append_empty_r.
  - cbn [formatTags_loop foldr Nat.ltb Nat.leb]. rewrite IH.
    now rewrite !append_assoc.
Qed.

Lemma formatTags_join (tags : list string) :
  formatTags tags = String.concat "," tags.
Proof.
  destruct tags as [| t tags]; [reflexivity |].
  unfold formatTags. cbn [formatTags_loop Nat.ltb Nat.leb].
  rewrite formatTags_loop_tail, concat_cons. reflexivity.
Qed.

Lemma formatValues_loop_tail (idx : nat) (points : list Point) (acc : string) :
  formatValues_loop (S idx) points acc =
  acc +:+ foldr (fun t r => "," +:+ t +:+ r) "" (value_fields points).
Proof.
  revert idx acc. induction points as [| p points IH]; intros idx acc.
  - cbn [formatValues_loop value_fields map foldr]. now rewrite append_empty_r.
  - cbn [formatValues_loop Nat.ltb Nat.leb value_fields map foldr]. rewrite IH.
    now rewrite !append_assoc.
Qed.

Lemma formatValues_join (points : list Point) :
  formatValues points = String.concat "," (value_fields points).
Proof.
  destruct points as [| p points]; [reflexivity |].
  unfold formatValues. cbn [formatValues_loop Nat.ltb Nat.leb value_fields map].
  rewrite formatValues_loop_tail, concat_cons, append_empty_l. reflexivity.
Qed.

(** ** What each operation does to the state *)

Ltac unfold_M :=
  unfold mbind, M_bind, mret, M_ret, get_client, modify_client, lift, panic.

Ltac simpl_M := cbn beta iota; cbn [fst snd].

Lemma getName_supported (envelope : option events.Envelope) :
  supported envelope → getName envelope = Returns (derived_name envelope).
Proof.
  unfold supported, getName, derived_name, payload_name. intros H.
  repeat case_decide; try reflexivity. tauto.
Qed.

Lemma getValue_supported (envelope : option events.Envelope) :
  supported envelope → getValue envelope = Returns (payload_value envelope).
Proof.
  unfold supported, getValue, payload_value. intros H.
  repeat case_decide; try reflexivity. tauto.
Qed.

Lemma AddMetric_ingest (envelope : option events.Envelope) (c : Client) (w : World) :
  AddMetric envelope (c, w) = (Returns tt, (ingest envelope c, w)).
Proof.
  unfold AddMetric, ingest. unfold_M. simpl_M.
  destruct (decide (supported envelope)) as [Hs | Hn].
  - rewrite decide_False by (unfold supported in Hs; tauto).
    rewrite (getName_supported _ Hs), (getValue_supported _ Hs).
    reflexivity.
  - rewrite decide_True; [reflexivity |].
    unfold supported in Hn. tauto.
Qed.

Lemma addInternalMetric_spec (name : string) (value : Z) (c : Client) (w : World) :
  addInternalMetric name value (c, w) =
  (Returns tt, (with_internal name (reading w) value c, advance w)).
Proof. reflexivity. Qed.

Lemma with_internal_fields (name : string) (now value : Z) (c : Client) :
  let c' := with_internal name now value c in
  url c' = url c ∧ database c' = database c ∧ prefix c' = prefix c
  ∧ c_deployment c' = c_deployment c ∧ c_ip c' = c_ip c
  ∧ totalMessagesReceived c' = totalMessagesReceived c
  ∧ totalMetricsSent c' = totalMetricsSent c.
Proof. cbn. tauto. Qed.

Lemma internal_key_with_internal (n m : string) (now value : Z) (c : Client) :
  internal_key (with_internal m now value c) n = internal_key c n.
Proof. reflexivity. Qed.

Lemma internal_key_inj (c : Client) (n m : string) :
  internal_key c n = internal_key c m → n = m.
Proof. intros H. now injection H. Qed.

Lemma lookup_with_internal (n : string) (now value : Z) (c : Client) (k : metricKey) :
  metricPoints (with_internal n now value c) !! k =
  if decide (internal_key c n = k) then Some (internal_entry c now value)
  else metricPoints c !! k.
Proof. unfold with_internal. cbn [metricPoints set_metricPoints]. apply lookup_insert. Qed.

Lemma containsSlowConsumerAlert_lookup (c : Client) :
  containsSlowConsumerAlert c = bool_decide (is_Some (metricPoints c !! alert_key c)).
Proof.
  unfold containsSlowConsumerAlert, alert_key, internal_key.
  destruct (metricPoints c !! _) as [v |].
  - symmetry. apply bool_decide_eq_true. eauto.
  - symmetry. apply bool_decide_eq_false. intros [v Hv]. discriminate.
Qed.

Lemma populateInternalMetrics_returns (s : state) :
  populateInternalMetrics s = (Returns tt, snapshot s).
Proof.
  unfold snapshot. destruct s as [c w].
  unfold populateInternalMetrics. unfold_M.
  repeat (simpl_M; rewrite addInternalMetric_spec).
  simpl_M.
  destruct (negb _); [rewrite addInternalMetric_spec |]; reflexivity.
Qed.

Lemma snapshot_eq (c : Client) (w : World) :
  snapshot (c, w) =
  let c1 := with_internal "totalMessagesReceived" (reading w) (totalMessagesReceived c) c in
  let w1 := advance w in
  let c2 := with_internal "totalMetricsSent" (reading w1) (totalMetricsSent c) c1 in
  let w2 := advance w1 in
  if containsSlowConsumerAlert c2 then (c2, w2)
  else (with_internal "slowConsumerAlert" (reading w2) 0 c2, advance w2).
Proof.
  unfold snapshot, populateInternalMetrics. unfold_M.
  repeat (simpl_M; rewrite addInternalMetric_spec).
  simpl_M. cbv zeta.
  destruct (containsSlowConsumerAlert _); cbn [negb];
    [| rewrite addInternalMetric_spec]; reflexivity.
Qed.

Lemma formatTimestamp_spec (points : list Point) (c : Client) (w : World) :
  formatTimestamp points (c, w) =
  (Returns (strconv.FormatInt (seconds_to_nanos (first_timestamp points (reading w)))),
   (c, match points with [] => advance w | _ :: _ => w end)).
Proof. destruct points; reflexivity. Qed.

Lemma formatMetrics_loop_spec (prefix : string) (entries : list (metricKey * metricValue))
    (buffer : string) (c : Client) (w : World) :
  formatMetrics_loop prefix entries buffer (c, w) =
  (Returns (buffer +:+ join_lines (lines_of prefix entries w).1),
   (c, (lines_of prefix entries w).2)).
Proof.
  revert buffer w. induction entries as [| [key mVal] rest IH]; intros buffer w.
  - cbn. now rewrite append_empty_r.
  - cbn [formatMetrics_loop lines_of]. unfold_M. simpl_M.
    rewrite formatTimestamp_spec. simpl_M. rewrite IH.
    destruct (lines_of prefix rest _) as [lines w2]. cbn [fst snd].
    unfold join_lines at 2. cbn [foldr]. fold (join_lines lines).
    unfold line. rewrite formatTags_join, formatValues_join.
    now rewrite !append_assoc.
Qed.

Lemma lines_of_is_line (prefix : string) (entries : list (metricKey * metricValue)) (w : World) :
  Forall2 (is_line_of prefix) entries (lines_of prefix entries w).1.
Proof.
  revert w. induction entries as [| [key mVal] rest IH]; intros w; cbn [lines_of].
  - constructor.
  - specialize (IH (match points mVal with [] => advance w | _ :: _ => w end)).
    destruct (lines_of prefix rest _) as [lines w2]. cbn [fst] in *.
    constructor; [| exact IH].
    eexists. split; [reflexivity |]. cbn [fst snd]. intros p0 tl ->. reflexivity.
Qed.

Lemma lines_of_nonempty (prefix : string) (entries : list (metricKey * metricValue)) (w : World) :
  Forall (fun entry => points entry.2 ≠ []) entries →
  lines_of prefix entries w = (map (entry_line prefix) entries, w).
Proof.
  induction 1 as [| [key mVal] rest Hne _ IH]; [reflexivity |].
  cbn [lines_of map]. cbn [snd] in Hne.
  destruct (points mVal) as [| p0 tl] eqn:Hp; [congruence |].
  rewrite IH. unfold entry_line. cbn [fst snd]. rewrite Hp. reflexivity.
Qed.

Lemma formatMetrics_spec (c : Client) (w : World) :
  let entries := visit (range_order w (tick w)) (metricPoints c) in
  formatMetrics (c, w) =
  (Returns (join_lines (lines_of (prefix c) entries (advance w)).1,
            Z.of_nat (size (metricPoints c))),
   (c, (lines_of (prefix c) entries (advance w)).2)).
Proof.
  unfold formatMetrics, range_map. unfold_M. simpl_M.
  rewrite formatMetrics_loop_spec. simpl_M. now rewrite append_empty_l.
Qed.

(** ** The serializer *)

Lemma visit_singleton (ro : RangeOrder) (key : metricKey) (mVal : metricValue) :
  visit ro {[ key := mVal ]} = [ (key, mVal) ].
Proof.
  apply Permutation_singleton_r.
  rewrite (visit_perm ro). now rewrite map_to_list_singleton.
Qed.

(** C1. Serializing the single entry named "name" with tags
    ["ip=1.2.3.4"; "deployment=prod"] and the one point (1000, 3.5)
    under the prefix "app." gives exactly the bytes
    [app.name,ip=1.2.3.4,deployment=prod value=3.5 1000000000000] followed
    by a line feed, and the record count 1. *)
Theorem formatMetrics_single_entry (c : Client) (w : World) (key : metricKey) :
  name key = "name" →
  prefix c = "app." →
  metricPoints c =
    {[ key := {| tags := [ "ip=1.2.3.4"; "deployment=prod" ];
                 points := [ {| Timestamp := 1000; Value := float_3_5 |} ] |} ]} →
  formatMetrics (c, w) =
    (Returns ("app.name,ip=1.2.3.4,deployment=prod value=3.5 1000000000000" +:+ LF, 1),
     (c, advance w)).
Proof.
  intros Hname Hprefix Hmap.
  rewrite formatMetrics_spec. cbv zeta.
  rewrite Hmap, visit_singleton, map_size_singleton, Hprefix.
  cbn [lines_of points first_timestamp Timestamp fst snd].
  unfold join_lines, line, value_fields. cbn [foldr map tags points Value Timestamp].
  rewrite Hname, FormatFloat_3_5.
  reflexivity.
Qed.

Lemma formatMetrics_single_entry_witness :
  formatMetrics (single_entry_client, still_world 0 (http.Failed "down")) =
    (Returns ("app.name,ip=1.2.3.4,deployment=prod value=3.5 1000000000000" +:+ LF, 1),
     (single_entry_client, advance (still_world 0 (http.Failed "down")))).
Proof.
  apply (formatMetrics_single_entry single_entry_client _
           (mkKey events.Envelope_ValueMetric "name" "prod" "" "" "1.2.3.4"));
    reflexivity.
Defined.

(** C2. The serializer writes one line per entry of the mapping, in the
    order the entries are visited: the line of an entry with N points
    carries N fields [value=<float>] joined by commas in point order and
    one timestamp, that of the first point; the record count is the
    number of entries. *)
Theorem formatMetrics_one_line_per_entry (c : Client) (w : World) :
  ∃ (entries : list (metricKey * metricValue)) (lines : list string) (w' : World),
    formatMetrics (c, w) =
      (Returns (join_lines lines, Z.of_nat (size (metricPoints c))), (c, w'))
    ∧ entries ≡ₚ map_to_list (metricPoints c)
    ∧ NoDup entries.*1
    ∧ length entries = size (metricPoints c)
    ∧ Forall2 (is_line_of (prefix c)) entries lines
    ∧ Forall (fun entry =>
         length (value_fields (points entry.2)) = length (points entry.2)) entries.
Proof.
  exists (visit (range_order w (tick w)) (metricPoints c)).
  eexists. eexists. split; [apply formatMetrics_spec |].
  pose proof (visit_perm (range_order w (tick w)) (metricPoints c)) as Hperm.
  split; [exact Hperm |]. split; [| split; [| split]].
  - rewrite Hperm. apply NoDup_fst_map_to_list.
  - rewrite Hperm. apply length_map_to_list.
  - apply lines_of_is_line.
  - apply Forall_forall. intros entry _. unfold value_fields. apply length_map.
Qed.

(** ** Ingest *)

Lemma AddMetrics_spec (envelopes : list (option events.Envelope)) (c : Client) (w : World) :
  AddMetrics envelopes (c, w) =
  (Returns tt, (foldl (fun c envelope => ingest envelope c) c envelopes, w)).
Proof.
  revert c. induction envelopes as [| envelope rest IH]; intros c; [reflexivity |].
  cbn [AddMetrics foldl]. unfold_M. simpl_M. rewrite AddMetric_ingest. apply IH.
Qed.

Lemma lookup_ingest (envelope : option events.Envelope) (c : Client) (k : metricKey) :
  metricPoints (ingest envelope c) !! k =
  if decide (feeds k envelope)
  then Some {| tags := getTags envelope;
               points := points (default zero_metricValue (metricPoints c !! k))
                         ++ [ observation envelope ] |}
  else metricPoints c !! k.
Proof.
  unfold ingest, feeds. destruct (decide (supported envelope)) as [Hs | Hn].
  - cbn [metricPoints set_metricPoints set_totalMessagesReceived].
    rewrite lookup_insert.
    destruct (decide (identity envelope = k)) as [<- | Hk].
    + rewrite decide_True by tauto. reflexivity.
    + rewrite decide_False by tauto. reflexivity.
  - rewrite decide_False by tauto. reflexivity.
Qed.

Lemma lookup_ingest_all (envelopes : list (option events.Envelope)) (c : Client)
    (k : metricKey) :
  metricPoints (foldl (fun c envelope => ingest envelope c) c envelopes) !! k =
  entry_after (metricPoints c !! k) (filter (feeds k) envelopes).
Proof.
  induction envelopes as [| envelope envelopes IH] using rev_ind; [reflexivity |].
  rewrite foldl_app. cbn [foldl]. rewrite lookup_ingest, IH, list.filter_app.
  destruct (decide (feeds k envelope)) as [Hf | Hf].
  - rewrite (filter_cons_True _ _ _ Hf), filter_nil.
    unfold entry_after at 2. rewrite last_snoc. f_equal. f_equal.
    rewrite map_app, app_assoc. f_equal.
    unfold entry_after. destruct (list.last (filter (feeds k) envelopes)) as [e |] eqn:Hl.
    + reflexivity.
    + apply last_None in Hl. rewrite Hl. cbn [map]. now rewrite app_nil_r.
  - rewrite (filter_cons_False _ _ _ Hf), filter_nil, app_nil_r. reflexivity.
Qed.

Lemma filter_feeds_all (k : metricKey) (envelopes : list (option events.Envelope)) :
  Forall (feeds k) envelopes → filter (feeds k) envelopes = envelopes.
Proof.
  induction 1 as [| e l He _ IH]; [reflexivity |].
  now rewrite filter_cons_True, IH.
Qed.

Lemma filter_feeds_none (k : metricKey) (envelopes : list (option events.Envelope)) :
  Forall (fun envelope => ¬ feeds k envelope) envelopes → filter (feeds k) envelopes = [].
Proof.
  induction 1 as [| e l He _ IH]; [reflexivity |].
  now rewrite filter_cons_False, IH.
Qed.

Lemma getTags_derived (envelope : option events.Envelope) :
  getTags envelope = derived_tags envelope.
Proof.
  unfold getTags, derived_tags, appendTagIfNotEmpty.
  rewrite !filter_cons, filter_nil. cbn [snd].
  repeat match goal with |- context [decide (?x ≠ "")] => destruct (decide (x ≠ "")) end;
    reflexivity.
Qed.

(** C3. A sequence of value-metric or counter-event envelopes that share
    their six identity fields is folded into the one entry of that
    identity: its points are the points it had before followed by one
    observation per envelope, in the order of ingestion; from a state
    without that entry, they are exactly the observations. *)
Theorem points_accumulate_in_order (envelopes : list (option events.Envelope))
    (k : metricKey) (c : Client) (w : World) :
  Forall (fun envelope => supported envelope ∧ identity envelope = k) envelopes →
  ∃ c' : Client,
    AddMetrics envelopes (c, w) = (Returns tt, (c', w))
    ∧ points (default zero_metricValue (metricPoints c' !! k)) =
        (points (default zero_metricValue (metricPoints c !! k))
         ++ map observation envelopes)%list
    ∧ (metricPoints c !! k = None →
       points (default zero_metricValue (metricPoints c' !! k)) = map observation envelopes
       ∧ length (points (default zero_metricValue (metricPoints c' !! k))) = length envelopes)
    ∧ (envelopes ≠ [] → is_Some (metricPoints c' !! k))
    ∧ (∀ k', k' ≠ k → metricPoints c' !! k' = metricPoints c !! k').
Proof.
  intros Hall. eexists. split; [apply AddMetrics_spec |].
  assert (Hk : metricPoints (foldl (fun c e => ingest e c) c envelopes) !! k =
               entry_after (metricPoints c !! k) envelopes).
  { rewrite lookup_ingest_all. now rewrite (filter_feeds_all k envelopes Hall). }
  assert (Hpts : points (default zero_metricValue
                   (metricPoints (foldl (fun c e => ingest e c) c envelopes) !! k)) =
                 (points (default zero_metricValue (metricPoints c !! k))
                  ++ map observation envelopes)%list).
  { rewrite Hk. unfold entry_after. destruct (list.last envelopes) as [e |] eqn:Hl.
    - reflexivity.
    - apply last_None in Hl. rewrite Hl. cbn [map]. now rewrite app_nil_r. }
  split; [exact Hpts |]. split; [| split].
  - intros Hnone. rewrite Hpts, Hnone. cbn [default zero_metricValue points app].
    split; [reflexivity | apply length_map].
  - intros Hne. rewrite Hk. unfold entry_after.
    destruct (list.last envelopes) as [e |] eqn:Hl; [eauto |].
    apply last_None in Hl. contradiction.
  - intros k' Hk'. rewrite lookup_ingest_all.
    replace (filter (feeds k') envelopes) with (@nil (option events.Envelope)); [reflexivity |].
    symmetry. apply filter_feeds_none.
    eapply List.Forall_impl; [| exact Hall]. intros e [_ He] [_ He']. congruence.
Qed.

Lemma points_accumulate_in_order_witness :
  ∃ c' : Client,
    AddMetrics [ cpu_envelope "web" 1500000000 float_3_5;
                 cpu_envelope "web" 2500000000 (float64_of_uint64 1) ]
      (example_client, still_world 0 (http.Failed "down"))
    = (Returns tt, (c', still_world 0 (http.Failed "down")))
    ∧ points (default zero_metricValue
        (metricPoints c' !! identity (cpu_envelope "web" 0 float_3_5))) =
      [ {| Timestamp := 1; Value := float_3_5 |};
        {| Timestamp := 2; Value := float64_of_uint64 1 |} ].
Proof.
  destruct (points_accumulate_in_order
              [ cpu_envelope "web" 1500000000 float_3_5;
                cpu_envelope "web" 2500000000 (float64_of_uint64 1) ]
              (identity (cpu_envelope "web" 0 float_3_5))
              example_client (still_world 0 (http.Failed "down")))
    as (c' & Hrun & _ & Hfresh & _).
  - repeat constructor.
  - exists c'. split; [exact Hrun |].
    destruct (Hfresh eq_refl) as [Hpts _]. rewrite Hpts. reflexivity.
Defined.

(** C4. The tags of an entry are those derived from the latest envelope
    ingested for its identity: they are overwritten at each ingest, not
    merged.  The derived tags are "deployment=", "job=", "index=" and
    "ip=", in this order, each left out when its field is empty.  After
    an envelope with job "x" and then one with job "", the entry of the
    second one has no "job=" tag. *)
Theorem tags_follow_latest_envelope :
  (∀ (envelopes fed : list (option events.Envelope)) (latest : option events.Envelope)
     (k : metricKey) (c : Client) (w : World),
     filter (feeds k) envelopes = (fed ++ [ latest ])%list →
     ∃ (c' : Client) (v : metricValue),
       AddMetrics envelopes (c, w) = (Returns tt, (c', w))
       ∧ metricPoints c' !! k = Some v
       ∧ tags v = getTags latest)
  ∧ (∀ envelope : option events.Envelope, getTags envelope = derived_tags envelope)
  ∧ (∀ (a b : option events.Envelope) (c : Client) (w : World),
       supported a → supported b →
       events.GetJob a = "x" → events.GetJob b = "" →
       ∃ (c' : Client) (v : metricValue),
         AddMetrics [ a; b ] (c, w) = (Returns tt, (c', w))
         ∧ metricPoints c' !! identity b = Some v
         ∧ tags v = getTags b
         ∧ Forall (fun tag => String.prefix "job=" tag = false) (tags v)).
Proof.
  split; [| split].
  - intros envelopes fed latest k c w Hfed.
    eexists. eexists. split; [apply AddMetrics_spec |].
    rewrite lookup_ingest_all, Hfed. unfold entry_after. rewrite last_snoc.
    split; reflexivity.
  - exact getTags_derived.
  - intros a b c w Ha Hb Hja Hjb.
    eexists. eexists. split; [apply AddMetrics_spec |].
    cbn [foldl]. rewrite lookup_ingest.
    rewrite decide_True by (split; [exact Hb | reflexivity]).
    split; [reflexivity |]. split; [reflexivity |].
    cbn [tags]. rewrite getTags_derived. unfold derived_tags.
    rewrite Hjb. rewrite !filter_cons, filter_nil. cbn [snd fst].
    rewrite (decide_False (P := "" ≠ "")) by (intros H; now apply H).
    repeat match goal with
           | |- context [decide (?x ≠ "")] => destruct (decide (x ≠ ""))
           end;
      cbn [map fst snd]; repeat constructor.
Qed.

Lemma tags_follow_latest_envelope_witness :
  ∃ (c' : Client) (v : metricValue),
    AddMetrics [ cpu_envelope "x" 1500000000 float_3_5;
                 cpu_envelope "" 2500000000 float_3_5 ]
      (example_client, still_world 0 (http.Failed "down"))
    = (Returns tt, (c', still_world 0 (http.Failed "down")))
    ∧ metricPoints c' !! identity (cpu_envelope "" 0 float_3_5) = Some v
    ∧ tags v = [ "deployment=prod"; "index=0"; "ip=10.0.0.1" ].
Proof.
  destruct (proj2 (proj2 tags_follow_latest_envelope)
              (cpu_envelope "x" 1500000000 float_3_5)
              (cpu_envelope "" 2500000000 float_3_5)
              example_client (still_world 0 (http.Failed "down")))
    as (c' & v & Hrun & Hv & Htags & _).
  - left. reflexivity.
  - left. reflexivity.
  - reflexivity.
  - reflexivity.
  - exists c', v. split; [exact Hrun |]. split; [exact Hv |].
    rewrite Htags. reflexivity.
Defined.

(** The job is one of the six identity fields: the envelope with job "x"
    and the one with job "" feed two entries, and the first keeps its
    "job=x" tag. *)
Remark job_separates_entries (a b : option events.Envelope) (c : Client) (w : World) :
  supported a → supported b →
  events.GetJob a = "x" → events.GetJob b = "" →
  identity a ≠ identity b
  ∧ ∃ (c' : Client) (v : metricValue),
      AddMetrics [ a; b ] (c, w) = (Returns tt, (c', w))
      ∧ metricPoints c' !! identity a = Some v
      ∧ "job=x" ∈ tags v.
Proof.
  intros Ha Hb Hja Hjb.
  assert (Hne : identity a ≠ identity b).
  { intros Heq. apply (f_equal job) in Heq. cbn in Heq. congruence. }
  split; [exact Hne |].
  eexists. eexists. split; [apply AddMetrics_spec |].
  cbn [foldl]. rewrite lookup_ingest.
  rewrite decide_False by (intros [_ Heq]; congruence).
  rewrite lookup_ingest.
  rewrite decide_True by (split; [exact Ha | reflexivity]).
  split; [reflexivity |].
  cbn [tags]. rewrite getTags_derived. unfold derived_tags.
  rewrite Hja. rewrite !filter_cons, filter_nil. cbn [snd fst].
  rewrite (decide_True (P := "x" ≠ "")) by discriminate.
  repeat match goal with
         | |- context [decide (?x ≠ "")] => destruct (decide (x ≠ ""))
         end;
    cbn [map fst snd]; set_solver.
Qed.

(** ** The snapshot of the internal metrics *)

Lemma internal_keys_distinct (c : Client) :
  received_key c ≠ sent_key c ∧ received_key c ≠ alert_key c ∧ sent_key c ≠ alert_key c.
Proof. repeat split; intros H; apply internal_key_inj in H; discriminate. Qed.

Lemma snapshot_config (c : Client) (w : World) :
  let c' := (snapshot (c, w)).1 in
  url c' = url c ∧ database c' = database c ∧ prefix c' = prefix c
  ∧ c_deployment c' = c_deployment c ∧ c_ip c' = c_ip c
  ∧ totalMessagesReceived c' = totalMessagesReceived c
  ∧ totalMetricsSent c' = totalMetricsSent c.
Proof.
  rewrite snapshot_eq. cbv zeta.
  destruct (containsSlowConsumerAlert _); cbn; tauto.
Qed.

Lemma snapshot_world (c : Client) (w : World) :
  let w' := (snapshot (c, w)).2 in
  now_unix w' = now_unix w ∧ range_order w' = range_order w
  ∧ url_parses w' = url_parses w ∧ server w' = server w ∧ sent w' = sent w.
Proof.
  rewrite snapshot_eq. cbv zeta.
  destruct (containsSlowConsumerAlert _); cbn; tauto.
Qed.

Lemma lookup_snapshot (c : Client) (w : World) (k : metricKey) :
  metricPoints (snapshot (c, w)).1 !! k =
  if decide (k = received_key c) then Some (received_entry c w)
  else if decide (k = sent_key c) then Some (sent_entry c w)
  else if decide (k = alert_key c)
       then Some (default (healthy_entry c w) (metricPoints c !! k))
       else metricPoints c !! k.
Proof.
  pose proof (internal_keys_distinct c) as (Hrs & Hra & Hsa).
  rewrite snapshot_eq. cbv zeta.
  rewrite containsSlowConsumerAlert_lookup.
  set (c1 := with_internal "totalMessagesReceived" _ _ c).
  set (c2 := with_internal "totalMetricsSent" _ _ c1).
  assert (Hc2 : ∀ k', metricPoints c2 !! k' =
    if decide (k' = received_key c) then Some (received_entry c w)
    else if decide (k' = sent_key c) then Some (sent_entry c w)
    else metricPoints c !! k').
  { intros k'. unfold c2, c1. rewrite !lookup_with_internal.
    rewrite internal_key_with_internal.
    fold (sent_key c) (received_key c).
    repeat case_decide; subst; try reflexivity; congruence. }
  change (alert_key c2) with (alert_key c).
  case_bool_decide as Halert; cbn [fst].
  - rewrite Hc2. repeat case_decide; subst; try reflexivity.
    rewrite Hc2 in Halert. rewrite decide_False, decide_False in Halert by congruence.
    destruct Halert as [v ->]. reflexivity.
  - rewrite lookup_with_internal.
    change (internal_key c2 "slowConsumerAlert") with (alert_key c).
    rewrite Hc2 in Halert. rewrite decide_False, decide_False in Halert by congruence.
    apply eq_None_not_Some in Halert.
    case_decide as Hk.
    + subst k. rewrite decide_False, decide_False, decide_True by congruence.
      rewrite Halert. reflexivity.
    + rewrite Hc2. repeat case_decide; subst; try reflexivity; congruence.
Qed.

Lemma snapshot_union (c : Client) (w : World) :
  metricPoints (snapshot (c, w)).1 =
  {[ received_key c := received_entry c w ]} ∪ {[ sent_key c := sent_entry c w ]}
  ∪ (metricPoints c ∪ {[ alert_key c := healthy_entry c w ]}).
Proof.
  pose proof (internal_keys_distinct c) as (Hrs & Hra & Hsa).
  apply map_eq. intros k. rewrite lookup_snapshot.
  rewrite !lookup_union.
  repeat case_decide; subst;
    rewrite ?lookup_singleton_eq;
    rewrite ?lookup_singleton_ne by congruence;
    destruct (metricPoints c !! _); reflexivity.
Qed.

(** ** The flush *)

Lemma batch_spec (c : Client) (w : World) :
  let c1 := (snapshot (c, w)).1 in
  let w1 := (snapshot (c, w)).2 in
  let entries := visit (range_order w1 (tick w1)) (metricPoints c1) in
  batch (c, w) =
  (Returns (join_lines (lines_of (prefix c1) entries (advance w1)).1,
            Z.of_nat (size (metricPoints c1))),
   (c1, (lines_of (prefix c1) entries (advance w1)).2)).
Proof.
  unfold batch. unfold_M. rewrite populateInternalMetrics_returns.
  destruct (snapshot (c, w)) as [c1 w1]. simpl_M.
  apply formatMetrics_spec.
Qed.

Lemma PostMetrics_unfold (c : Client) (w : World) :
  PostMetrics (c, w) =
  match batch (c, w) with
  | (Returns (body, n), (c1, w1)) =>
      if url_parses w1 (seriesURL c) then
        let req := http.mkRequest "POST" (seriesURL c) body in
        let w2 := advance (record_request req w1) in
        match server w1 (tick w1) req with
        | http.Failed err => (Returns (Some err), (c1, w2))
        | http.Answered resp =>
            if (300 <=? http.StatusCode resp) || (http.StatusCode resp <? 200)
            then (Returns (Some ("InfluxDB request returned HTTP response: "
                                 +:+ http.Status resp)), (c1, w2))
            else (Returns None,
                  (set_metricPoints ∅
                     (set_totalMetricsSent (Int.add_u64 (totalMetricsSent c1) n) c1), w2))
        end
      else (Panics "invalid memory address or nil pointer dereference", (c1, w1))
  | (Panics msg, s') => (Panics msg, s')
  end.
Proof.
  unfold PostMetrics, batch. unfold_M. simpl_M.
  rewrite populateInternalMetrics_returns.
  destruct (snapshot (c, w)) as [c1 w1]. simpl_M.
  rewrite formatMetrics_spec. simpl_M.
  unfold http_NewRequest. simpl_M.
  destruct (url_parses _ _); simpl_M; [| reflexivity].
  unfold http_Do. simpl_M.
  destruct (server _ _ _) as [err | resp]; simpl_M; [reflexivity |].
  destruct (_ || _); reflexivity.
Qed.

Lemma lines_of_world (p : string) (entries : list (metricKey * metricValue)) (w : World) :
  let w' := (lines_of p entries w).2 in
  now_unix w' = now_unix w ∧ range_order w' = range_order w
  ∧ url_parses w' = url_parses w ∧ server w' = server w ∧ sent w' = sent w.
Proof.
  revert w. induction entries as [| [key mVal] rest IH]; intros w; [cbn; tauto |].
  cbn [lines_of].
  specialize (IH (match points mVal with [] => advance w | _ :: _ => w end)).
  destruct (lines_of p rest _) as [lines w2]. cbn [snd] in *.
  destruct (points mVal); cbn in IH; exact IH.
Qed.

Lemma batch_returns (c : Client) (w : World) :
  ∃ (body : string) (w1 : World),
    batch (c, w) =
      (Returns (body, Z.of_nat (size (metricPoints (snapshot (c, w)).1))),
       ((snapshot (c, w)).1, w1))
    ∧ url_parses w1 = url_parses w ∧ sent w1 = sent w.
Proof.
  eexists. eexists. split; [apply batch_spec |].
  pose proof (snapshot_world c w) as (_ & _ & Hu & _ & Hs).
  match goal with
  | |- context [lines_of ?p ?es ?w0] =>
      pose proof (lines_of_world p es w0) as (_ & _ & Hu' & _ & Hs')
  end.
  cbn in Hu', Hs'. split; congruence.
Qed.

(** C6. When the transport fails (a network error or a status outside
    2xx), the flush returns an error; the mapping is not reset: it is
    the mapping from before the flush with the internal metrics of this
    attempt's snapshot written over it; [totalMetricsSent] is unchanged. *)
Theorem failed_flush_keeps_entries (c : Client) (w : World) (rt : http.RoundTrip) :
  transport_answer (c, w) = Some rt →
  failed rt →
  ∃ (err : string) (c' : Client) (w' : World),
    PostMetrics (c, w) = (Returns (Some err), (c', w'))
    ∧ c' = (snapshot (c, w)).1
    ∧ metricPoints c' =
        {[ received_key c := received_entry c w ]} ∪ {[ sent_key c := sent_entry c w ]}
        ∪ (metricPoints c ∪ {[ alert_key c := healthy_entry c w ]})
    ∧ (∀ k, is_Some (metricPoints c !! k) → is_Some (metricPoints c' !! k))
    ∧ (∀ k, k ≠ received_key c → k ≠ sent_key c →
            is_Some (metricPoints c !! k) → metricPoints c' !! k = metricPoints c !! k)
    ∧ totalMetricsSent c' = totalMetricsSent c
    ∧ totalMessagesReceived c' = totalMessagesReceived c.
Proof.
  intros Hrt Hfail.
  unfold transport_answer, flush_request in Hrt.
  rewrite PostMetrics_unfold.
  destruct (batch_returns c w) as (body & w1 & Hb & _ & _).
  rewrite Hb in *. cbn [fst snd] in Hrt.
  destruct (url_parses w1 (seriesURL c)); [| discriminate].
  injection Hrt as Hrt. cbv zeta. rewrite Hrt.
  pose proof (snapshot_config c w) as (_ & _ & _ & _ & _ & Hrecv & Hsent).
  assert (Hkeep : ∀ k, k ≠ received_key c → k ≠ sent_key c →
            is_Some (metricPoints c !! k) →
            metricPoints (snapshot (c, w)).1 !! k = metricPoints c !! k).
  { intros k Hr Hs [v Hv]. rewrite lookup_snapshot.
    rewrite decide_False, decide_False by assumption.
    case_decide; [rewrite Hv |]; reflexivity. }
  assert (Hstay : ∀ k, is_Some (metricPoints c !! k) →
            is_Some (metricPoints (snapshot (c, w)).1 !! k)).
  { intros k Hk. rewrite lookup_snapshot. repeat case_decide; eauto. }
  destruct rt as [err | resp]; cbn in Hfail.
  - do 3 eexists. split; [reflexivity |].
    repeat split; auto using snapshot_union.
  - replace ((300 <=? http.StatusCode resp) || (http.StatusCode resp <? 200))
      with true by (symmetry; apply orb_true_iff; rewrite Z.leb_le, Z.ltb_lt; lia).
    do 3 eexists. split; [reflexivity |].
    repeat split; auto using snapshot_union.
Qed.

Lemma failed_flush_keeps_entries_witness :
  ∃ (err : string) (c' : Client) (w' : World),
    PostMetrics (single_entry_client, still_world 5 (http.Failed "connection refused"))
    = (Returns (Some err), (c', w'))
    ∧ size (metricPoints c') = 4%nat
    ∧ totalMetricsSent c' = 0.
Proof.
  destruct (failed_flush_keeps_entries single_entry_client
              (still_world 5 (http.Failed "connection refused"))
              (http.Failed "connection refused"))
    as (err & c' & w' & Hrun & Hc' & _ & _ & _ & Hsent & _).
  - vm_compute. reflexivity.
  - exact I.
  - exists err, c', w'. split; [exact Hrun |]. split; [| exact Hsent].
    rewrite Hc'. vm_compute. reflexivity.
Defined.

Lemma snapshot_of_empty (c : Client) (w : World) :
  metricPoints c = ∅ →
  map_to_list (metricPoints (snapshot (c, w)).1) ≡ₚ
  [ (received_key c, received_entry c w);
    (sent_key c, sent_entry c w);
    (alert_key c, healthy_entry c w) ].
Proof.
  intros Hempty.
  pose proof (internal_keys_distinct c) as (Hrs & Hra & Hsa).
  assert (Hmap : metricPoints (snapshot (c, w)).1 =
    <[ received_key c := received_entry c w ]>
      (<[ sent_key c := sent_entry c w ]>
         (<[ alert_key c := healthy_entry c w ]> ∅))).
  { apply map_eq. intros k. rewrite lookup_snapshot, Hempty.
    rewrite !lookup_insert, !lookup_empty.
    repeat case_decide; subst; try reflexivity; congruence. }
  rewrite Hmap.
  rewrite map_to_list_insert.
  2:{ rewrite !lookup_insert_ne by congruence. apply lookup_empty. }
  rewrite map_to_list_insert.
  2:{ rewrite !lookup_insert_ne by congruence. apply lookup_empty. }
  rewrite map_to_list_insert by apply lookup_empty.
  now rewrite map_to_list_empty.
Qed.

(** C7. When the transport answers 2xx, the flush returns nil and leaves
    an empty mapping; [totalMessagesReceived] is as before and
    [totalMetricsSent] has grown by the record count of the batch and by
    nothing else.  The batch of the next flush, with no ingest in
    between, is made of the lines of the three internal metrics. *)
Theorem successful_flush_resets_entries (c : Client) (w : World) (rt : http.RoundTrip) :
  transport_answer (c, w) = Some rt →
  succeeded rt →
  ∃ (c' : Client) (w' : World) (body : string) (count : Z),
    PostMetrics (c, w) = (Returns None, (c', w'))
    ∧ (batch (c, w)).1 = Returns (body, count)
    ∧ metricPoints c' = ∅
    ∧ totalMessagesReceived c' = totalMessagesReceived c
    ∧ totalMetricsSent c' = Int.add_u64 (totalMetricsSent c) count
    ∧ count = Z.of_nat (size (metricPoints (snapshot (c, w)).1))
    ∧ ∀ w2 : World,
        ∃ (entries : list (metricKey * metricValue)) (w3 : World),
          entries ≡ₚ [ (received_key c', received_entry c' w2);
                       (sent_key c', sent_entry c' w2);
                       (alert_key c', healthy_entry c' w2) ]
          ∧ batch (c', w2) =
              (Returns (join_lines (map (entry_line (prefix c')) entries), 3),
               ((snapshot (c', w2)).1, w3))
          ∧ (∀ req, flush_request (c', w2) = Some req →
               http.Body req = join_lines (map (entry_line (prefix c')) entries)
               ∧ sent (PostMetrics (c', w2)).2.2 = req :: sent w2).
Proof.
  intros Hrt Hok.
  unfold transport_answer, flush_request in Hrt.
  rewrite PostMetrics_unfold.
  destruct (batch_returns c w) as (body & w1 & Hb & _ & _).
  rewrite Hb in *. cbn [fst snd] in Hrt.
  destruct (url_parses w1 (seriesURL c)); [| discriminate].
  injection Hrt as Hrt. cbv zeta. rewrite Hrt.
  destruct rt as [err | resp]; cbn in Hok; [contradiction |].
  replace ((300 <=? http.StatusCode resp) || (http.StatusCode resp <? 200))
    with false by (symmetry; apply orb_false_iff; rewrite Z.leb_gt, Z.ltb_ge; lia).
  pose proof (snapshot_config c w) as (_ & _ & _ & _ & _ & Hrecv & Hsent).
  do 4 eexists. split; [reflexivity |]. split; [reflexivity |].
  split; [reflexivity |]. split; [exact Hrecv |].
  split; [cbn; now rewrite Hsent |]. split; [reflexivity |].
  intros w2.
  set (c' := set_metricPoints ∅ _).
  pose proof (snapshot_of_empty c' w2 eq_refl) as Hthree.
  set (c1 := (snapshot (c', w2)).1) in *.
  set (w1' := (snapshot (c', w2)).2).
  set (entries := visit (range_order w1' (tick w1')) (metricPoints c1)).
  assert (Hperm : entries ≡ₚ [ (received_key c', received_entry c' w2);
                               (sent_key c', sent_entry c' w2);
                               (alert_key c', healthy_entry c' w2) ]).
  { unfold entries. rewrite (visit_perm _ _). exact Hthree. }
  assert (Hlines : lines_of (prefix c1) entries (advance w1') =
                   (map (entry_line (prefix c')) entries, advance w1')).
  { replace (prefix c1) with (prefix c') by (symmetry; apply (snapshot_config c' w2)).
    apply lines_of_nonempty. rewrite Hperm.
    repeat constructor; discriminate. }
  assert (Hbatch : batch (c', w2) =
            (Returns (join_lines (map (entry_line (prefix c')) entries), 3),
             (c1, advance w1'))).
  { rewrite batch_spec. cbv zeta. fold c1 w1' entries. rewrite Hlines. cbn [fst snd].
    replace (size (metricPoints c1)) with 3%nat; [reflexivity |].
    rewrite <- length_map_to_list, Hthree. reflexivity. }
  exists entries, (advance w1'). split; [exact Hperm |]. split; [exact Hbatch |].
  intros req Hreq. unfold flush_request in Hreq. rewrite Hbatch in Hreq.
  rewrite PostMetrics_unfold, Hbatch. cbn [fst] in Hreq.
  destruct (url_parses (advance w1') (seriesURL c')); [| discriminate].
  injection Hreq as <-. split; [reflexivity |].
  pose proof (snapshot_world c' w2) as (_ & _ & _ & _ & Hs). fold w1' in Hs.
  cbv zeta.
  match goal with
  | |- context [server ?a ?b ?r] => destruct (server a b r) as [err | resp']
  end;
    [| match goal with |- context [?a || ?b] => destruct (a || b) end];
    cbn [fst snd advance record_request sent]; now rewrite Hs.
Qed.

Lemma successful_flush_resets_entries_witness :
  ∃ (c' : Client) (w' : World),
    PostMetrics (single_entry_client,
                 still_world 5 (http.Answered (http.mkResponse 204 "204 No Content")))
    = (Returns None, (c', w'))
    ∧ metricPoints c' = ∅
    ∧ totalMetricsSent c' = 4.
Proof.
  destruct (successful_flush_resets_entries single_entry_client
              (still_world 5 (http.Answered (http.mkResponse 204 "204 No Content")))
              (http.Answered (http.mkResponse 204 "204 No Content")))
    as (c' & w' & body & count & Hrun & _ & Hempty & _ & Hsent & Hcount & _).
  - vm_compute. reflexivity.
  - cbn. lia.
  - exists c', w'. split; [exact Hrun |]. split; [exact Hempty |].
    rewrite Hsent, Hcount. vm_compute. reflexivity.
Defined.

(** ** Runs of the client *)

Lemma same_config_internal (c c' : Client) :
  same_config c c' →
  (∀ n, internal_key c' n = internal_key c n)
  ∧ (∀ t v, internal_entry c' t v = internal_entry c t v).
Proof.
  intros (_ & _ & _ & Hd & Hi). unfold internal_key, internal_entry.
  rewrite Hd, Hi. split; reflexivity.
Qed.

Lemma ingest_config (envelope : option events.Envelope) (c : Client) :
  same_config c (ingest envelope c).
Proof. unfold ingest, same_config. case_decide; repeat split; reflexivity. Qed.

Lemma snapshot_same_config (c : Client) (w : World) :
  same_config c (snapshot (c, w)).1.
Proof.
  pose proof (snapshot_config c w) as H. cbv zeta in H.
  unfold same_config. tauto.
Qed.

Lemma identity_eventType (envelope : option events.Envelope) :
  supported envelope →
  eventType (identity envelope) = events.Envelope_ValueMetric
  ∨ eventType (identity envelope) = events.Envelope_CounterEvent.
Proof. intros H. exact H. Qed.

Lemma feeds_eventType (k : metricKey) (envelope : option events.Envelope) :
  feeds k envelope →
  eventType k = events.Envelope_ValueMetric ∨ eventType k = events.Envelope_CounterEvent.
Proof. intros [Hs <-]. now apply identity_eventType. Qed.

Lemma internal_not_fed (c : Client) (n : string) (envelope : option events.Envelope) :
  ¬ feeds (internal_key c n) envelope.
Proof.
  intros H. apply feeds_eventType in H. cbn in H.
  destruct H as [H | H]; discriminate.
Qed.

(** What one operation does to the client. *)
Lemma step_cases (op : Op) (c : Client) (w : World) :
  match op with
  | Ingest envelope =>
      (step op (c, w)).1 = Returns None ∧ (step op (c, w)).2.1 = ingest envelope c
  | RecordAlert =>
      (step op (c, w)).1 = Returns None
      ∧ (step op (c, w)).2.1 = with_internal "slowConsumerAlert" (reading w) 1 c
  | Snapshot =>
      (step op (c, w)).1 = Returns None ∧ (step op (c, w)).2.1 = (snapshot (c, w)).1
  | Flush =>
      ((step op (c, w)).1 = Returns None
       ∧ metricPoints (step op (c, w)).2.1 = ∅
       ∧ same_config c (step op (c, w)).2.1)
      ∨ ((step op (c, w)).1 ≠ Returns None
         ∧ (step op (c, w)).2.1 = (snapshot (c, w)).1)
  end.
Proof.
  destruct op as [envelope | | |]; cbn [step]; unfold_M.
  - rewrite AddMetric_ingest. split; reflexivity.
  - unfold AlertSlowConsumerError. rewrite addInternalMetric_spec. split; reflexivity.
  - rewrite populateInternalMetrics_returns. split; reflexivity.
  - rewrite PostMetrics_unfold.
    destruct (batch_returns c w) as (body & w1 & -> & _ & _).
    destruct (url_parses w1 (seriesURL c)); [| right; split; [discriminate | reflexivity]].
    cbv zeta. destruct (server _ _ _) as [err | resp].
    + right. split; [discriminate | reflexivity].
    + destruct (_ || _).
      * right. split; [discriminate | reflexivity].
      * left. split; [reflexivity |]. split; [reflexivity |].
        cbn. apply snapshot_same_config.
Qed.

Lemma run_invariant (P : Client → bool → Prop) :
  (∀ op c w a, P c a →
     P (step op (c, w)).2.1 (window_alert op (step op (c, w)).1 a)) →
  ∀ ops c w a, P c a → P (run ops (c, w) a).1.1 (run ops (c, w) a).2.
Proof.
  intros Hstep ops. induction ops as [| op ops IH]; intros c w a HP; [exact HP |].
  cbn [run]. specialize (Hstep op c w a HP).
  destruct (step op (c, w)) as [r [c' w']]. cbn [fst snd] in Hstep.
  apply IH. exact Hstep.
Qed.

Lemma alert_inv_step (op : Op) (c : Client) (w : World) (a : bool) :
  alert_inv c a →
  alert_inv (step op (c, w)).2.1 (window_alert op (step op (c, w)).1 a).
Proof.
  intros Hinv. pose proof (step_cases op c w) as Hop.
  assert (Hsnap : alert_inv (snapshot (c, w)).1 a).
  { unfold alert_inv in *.
    destruct (same_config_internal _ _ (snapshot_same_config c w)) as [Hk He].
    unfold alert_key in *. rewrite Hk, lookup_snapshot.
    pose proof (internal_keys_distinct c) as (_ & Hra & Hsa).
    unfold alert_key in *.
    rewrite decide_False, decide_False, decide_True by congruence.
    destruct (metricPoints c !! internal_key c "slowConsumerAlert") as [v |].
    - destruct Hinv as [t ->]. exists t. cbn. now rewrite He.
    - subst a. eexists. cbn. rewrite He. reflexivity. }
  destruct op as [envelope | | |].
  - destruct Hop as [-> ->]. cbn [window_alert].
    unfold alert_inv in *.
    destruct (same_config_internal _ _ (ingest_config envelope c)) as [Hk He].
    unfold alert_key in *. rewrite Hk, lookup_ingest.
    rewrite decide_False by apply internal_not_fed.
    destruct (metricPoints c !! _); [| exact Hinv].
    destruct Hinv as [t ->]. exists t. now rewrite He.
  - destruct Hop as [-> ->]. cbn [window_alert].
    unfold alert_inv. rewrite lookup_with_internal.
    rewrite decide_True by reflexivity. eexists. reflexivity.
  - destruct Hop as [-> ->]. cbn [window_alert]. exact Hsnap.
  - destruct Hop as [(-> & Hempty & Hcfg) | (Hr & ->)].
    + cbn [window_alert]. unfold alert_inv. rewrite Hempty, lookup_empty. reflexivity.
    + replace (window_alert Flush (step Flush (c, w)).1 a) with a; [exact Hsnap |].
      cbn [window_alert]. destruct (step Flush (c, w)).1 as [[e |] | msg];
        try reflexivity. congruence.
Qed.

Lemma alert_inv_New (url database user password prefix deployment ip : string) :
  alert_inv (New url database user password prefix deployment ip) false.
Proof. unfold alert_inv. cbn. rewrite lookup_empty. reflexivity. Qed.

(** C5. After any run of the client from [New], a snapshot of the
    internal metrics leaves the alert entry at 1, untouched, when
    [AlertSlowConsumerError] was called since the last successful flush;
    otherwise the alert entry holds 0 after the snapshot, which adds it
    whenever it was missing. *)
Theorem snapshot_respects_alert
    (url database user password prefix deployment ip : string)
    (w0 : World) (ops : list Op) :
  let c := (run ops (New url database user password prefix deployment ip, w0) false).1.1 in
  let w := (run ops (New url database user password prefix deployment ip, w0) false).1.2 in
  let alerted := (run ops (New url database user password prefix deployment ip, w0) false).2 in
  let c' := (snapshot (c, w)).1 in
  populateInternalMetrics (c, w) = (Returns tt, snapshot (c, w))
  ∧ alert_key c' = alert_key c
  ∧ float64_of_uint64 1 ≠ float64_of_uint64 0
  ∧ if alerted
    then (∃ t, metricPoints c !! alert_key c = Some (internal_entry c t 1))
         ∧ metricPoints c' !! alert_key c = metricPoints c !! alert_key c
    else (∃ t, metricPoints c' !! alert_key c = Some (internal_entry c t 0))
         ∧ (metricPoints c !! alert_key c = None →
            metricPoints c' !! alert_key c = Some (healthy_entry c w)).
Proof.
  cbv zeta.
  pose proof (run_invariant alert_inv alert_inv_step ops _ w0 false
                (alert_inv_New url database user password prefix deployment ip)) as Hinv.
  destruct (run ops _ false) as [[c w] alerted]. cbn [fst snd] in *.
  split; [apply populateInternalMetrics_returns |].
  split; [apply (same_config_internal _ _ (snapshot_same_config c w)) |].
  split; [discriminate |].
  pose proof (internal_keys_distinct c) as (_ & Hra & Hsa).
  assert (Hlook : metricPoints (snapshot (c, w)).1 !! alert_key c =
                  Some (default (healthy_entry c w) (metricPoints c !! alert_key c))).
  { rewrite lookup_snapshot. now rewrite decide_False, decide_False, decide_True by congruence. }
  unfold alert_inv in Hinv. rewrite Hlook.
  destruct alerted.
  - destruct (metricPoints c !! alert_key c) as [v |]; [| discriminate].
    destruct Hinv as [t ->]. split; [eauto | reflexivity].
  - split.
    + destruct (metricPoints c !! alert_key c) as [v |].
      * destruct Hinv as [t ->]. eauto.
      * eexists. reflexivity.
    + intros ->. reflexivity.
Qed.

Lemma snapshot_respects_alert_witness :
  let s := run [ RecordAlert; Ingest (cpu_envelope "web" 1500000000 float_3_5); Flush ]
             (example_client, still_world 7 (http.Failed "down")) false in
  s.2 = true
  ∧ ∃ t, metricPoints (snapshot s.1).1 !! alert_key s.1.1 = Some (internal_entry s.1.1 t 1).
Proof.
  pose proof (snapshot_respects_alert "http://influx:8086" "metrics" "" "" "app." "prod"
                "1.2.3.4" (still_world 7 (http.Failed "down"))
                [ RecordAlert; Ingest (cpu_envelope "web" 1500000000 float_3_5); Flush ])
    as H.
  cbv zeta in H. fold example_client in H.
  cbv zeta.
  set (s := run _ (example_client, still_world 7 (http.Failed "down")) false) in *.
  assert (Ha : s.2 = true) by (vm_compute; reflexivity).
  rewrite Ha in H. destruct H as (_ & _ & _ & [t Ht] & Hkeep).
  split; [exact Ha |]. exists t.
  destruct s as [[c w] a]. cbn [fst snd] in *. rewrite Hkeep. exact Ht.
Defined.

Lemma all_have_points_internal (n : string) (t v : Z) (c : Client) :
  all_have_points c → all_have_points (with_internal n t v c).
Proof.
  intros H. unfold all_have_points, with_internal. cbn [metricPoints set_metricPoints].
  apply map_Forall_insert_2; [discriminate | exact H].
Qed.

Lemma all_have_points_ingest (envelope : option events.Envelope) (c : Client) :
  all_have_points c → all_have_points (ingest envelope c).
Proof.
  intros H. unfold all_have_points, ingest. case_decide; [| exact H].
  cbn [metricPoints set_metricPoints set_totalMessagesReceived].
  apply map_Forall_insert_2; [| exact H].
  cbn [points]. intros Heq. apply app_eq_nil in Heq as [_ Heq]. discriminate.
Qed.

Lemma all_have_points_snapshot (c : Client) (w : World) :
  all_have_points c → all_have_points (snapshot (c, w)).1.
Proof.
  intros H. rewrite snapshot_eq. cbv zeta.
  destruct (containsSlowConsumerAlert _); cbn [fst];
    repeat apply all_have_points_internal; exact H.
Qed.

Lemma all_have_points_step (op : Op) (c : Client) (w : World) (a : bool) :
  all_have_points c → all_have_points (step op (c, w)).2.1.
Proof.
  intros H. pose proof (step_cases op c w) as Hop.
  destruct op as [envelope | | |].
  - destruct Hop as [_ ->]. now apply all_have_points_ingest.
  - destruct Hop as [_ ->]. now apply all_have_points_internal.
  - destruct Hop as [_ ->]. now apply all_have_points_snapshot.
  - destruct Hop as [(_ & Hempty & _) | (_ & ->)].
    + unfold all_have_points. rewrite Hempty. apply map_Forall_empty.
    + now apply all_have_points_snapshot.
Qed.

Lemma all_have_points_visit (c : Client) (ro : RangeOrder) :
  all_have_points c →
  Forall (fun entry => points entry.2 ≠ []) (visit ro (metricPoints c)).
Proof.
  intros H. rewrite (visit_perm ro). apply list.Forall_forall. intros [k v] Hin.
  apply elem_of_map_to_list in Hin. exact (H k v Hin).
Qed.

(** C9. In every state reached from [New] by ingests, alerts, snapshots
    and flushes, every entry of the mapping has at least one point; so
    [formatTimestamp] takes the timestamp of the first point for every
    entry, and the serializer never reads the clock. *)
Theorem entries_always_have_points
    (url database user password pfx deployment ip : string)
    (w0 : World) (ops : list Op) :
  let c := (run ops (New url database user password pfx deployment ip, w0) false).1.1 in
  (∀ k v, metricPoints c !! k = Some v → points v ≠ [])
  ∧ (∀ k v, metricPoints c !! k = Some v →
       ∃ p0 rest, points v = p0 :: rest
         ∧ ∀ s : state,
             formatTimestamp (points v) s =
             (Returns (strconv.FormatInt (seconds_to_nanos (Timestamp p0))), s))
  ∧ (∀ w : World,
       formatMetrics (c, w) =
       (Returns (join_lines (map (entry_line (prefix c))
                               (visit (range_order w (tick w)) (metricPoints c))),
                 Z.of_nat (size (metricPoints c))),
        (c, advance w))).
Proof.
  cbv zeta.
  pose proof (run_invariant (fun c _ => all_have_points c)
                (fun op c w a => all_have_points_step op c w a) ops
                (New url database user password pfx deployment ip) w0 false) as Hinv.
  cbv beta in Hinv.
  set (c := (run ops _ false).1.1) in *.
  assert (Hall : all_have_points c).
  { apply Hinv. unfold all_have_points. cbn. apply map_Forall_empty. }
  clearbody c. clear Hinv.
  split; [exact Hall |]. split.
  - intros k v Hk. pose proof (Hall k v Hk) as Hne. cbn in Hne.
    destruct (points v) as [| p0 rest]; [contradiction |].
    exists p0, rest. split; reflexivity.
  - intros w. rewrite formatMetrics_spec. cbv zeta.
    rewrite lines_of_nonempty by now apply all_have_points_visit.
    reflexivity.
Qed.

Lemma entries_always_have_points_witness :
  let c := (run [ Ingest (cpu_envelope "web" 1500000000 float_3_5); RecordAlert; Flush ]
              (example_client, still_world 7 (http.Failed "down")) false).1.1 in
  size (metricPoints c) = 4%nat
  ∧ ∀ k v, metricPoints c !! k = Some v → points v ≠ [].
Proof.
  cbv zeta. split; [vm_compute; reflexivity |].
  exact (proj1 (entries_always_have_points "http://influx:8086" "metrics" "" "" "app."
                  "prod" "1.2.3.4" (still_world 7 (http.Failed "down"))
                  [ Ingest (cpu_envelope "web" 1500000000 float_3_5); RecordAlert; Flush ])).
Defined.

(** ** Internal and ingested keys *)

Lemma lookup_snapshot_other (c : Client) (w : World) (k : metricKey) :
  eventType k ≠ 0 →
  metricPoints (snapshot (c, w)).1 !! k = metricPoints c !! k.
Proof.
  intros Hk. rewrite lookup_snapshot.
  repeat case_decide; subst; try reflexivity; now cbn in Hk.
Qed.

(** C10. The internal metrics are keyed with the event type 0 and the
    entries made by an ingest with the event type of a value metric or
    of a counter event, which are not 0.  Hence an ingest changes no
    entry of type 0; a snapshot and an alert change no entry of another
    type, and what they write depends on the entries of type 0 only; an
    ingested entry that has the alert's name, deployment and address
    neither holds back the default alert 0 nor is replaced by it. *)
Theorem internal_keys_apart_from_ingested :
  (∀ (c : Client) (n : string), eventType (internal_key c n) = 0)
  ∧ events.Envelope_ValueMetric ≠ 0
  ∧ events.Envelope_CounterEvent ≠ 0
  ∧ (∀ (envelope : option events.Envelope) (c : Client) (w : World) (k : metricKey),
       metricPoints (AddMetric envelope (c, w)).2.1 !! k ≠ metricPoints c !! k →
       k = identity envelope
       ∧ (eventType k = events.Envelope_ValueMetric
          ∨ eventType k = events.Envelope_CounterEvent))
  ∧ (∀ (c : Client) (w : World) (k : metricKey),
       eventType k ≠ 0 →
       metricPoints (populateInternalMetrics (c, w)).2.1 !! k = metricPoints c !! k
       ∧ metricPoints (AlertSlowConsumerError (c, w)).2.1 !! k = metricPoints c !! k)
  ∧ (∀ (c : Client) (w : World) (m : gmap metricKey metricValue),
       (∀ k, eventType k = 0 → m !! k = metricPoints c !! k) →
       containsSlowConsumerAlert (set_metricPoints m c) = containsSlowConsumerAlert c
       ∧ ∀ k, eventType k = 0 →
           metricPoints (populateInternalMetrics (set_metricPoints m c, w)).2.1 !! k =
           metricPoints (populateInternalMetrics (c, w)).2.1 !! k)
  ∧ (∀ (c : Client) (w : World) (t : events.Envelope_EventType) (job index : string)
       (v : metricValue),
       t = events.Envelope_ValueMetric ∨ t = events.Envelope_CounterEvent →
       metricPoints c !! lookalike_key c t job index = Some v →
       metricPoints c !! alert_key c = None →
       containsSlowConsumerAlert c = false
       ∧ metricPoints (populateInternalMetrics (c, w)).2.1 !! alert_key c =
           Some (healthy_entry c w)
       ∧ metricPoints (populateInternalMetrics (c, w)).2.1 !! lookalike_key c t job index =
           Some v).
Proof.
  split; [reflexivity |]. split; [discriminate |]. split; [discriminate |].
  split; [| split; [| split]].
  - intros envelope c w k Hk. rewrite AddMetric_ingest in Hk. cbn [fst snd] in Hk.
    rewrite lookup_ingest in Hk. case_decide as Hf; [| contradiction].
    split; [symmetry; apply Hf | now apply (feeds_eventType k envelope)].
  - intros c w k Hk. rewrite populateInternalMetrics_returns. cbn [snd].
    split; [now apply lookup_snapshot_other |].
    unfold AlertSlowConsumerError. rewrite addInternalMetric_spec. cbn [fst snd].
    rewrite lookup_with_internal. case_decide; [| reflexivity].
    subst k. now cbn in Hk.
  - intros c w m Hm. split.
    + rewrite !containsSlowConsumerAlert_lookup.
      change (alert_key (set_metricPoints m c)) with (alert_key c).
      cbn [metricPoints set_metricPoints]. now rewrite Hm.
    + intros k Hk. rewrite !populateInternalMetrics_returns. cbn [snd].
      rewrite !lookup_snapshot. cbn [metricPoints set_metricPoints].
      change (received_key (set_metricPoints m c)) with (received_key c).
      change (sent_key (set_metricPoints m c)) with (sent_key c).
      change (alert_key (set_metricPoints m c)) with (alert_key c).
      rewrite (Hm k Hk). reflexivity.
  - intros c w t job index v Ht Hv Halert.
    rewrite populateInternalMetrics_returns. cbn [snd].
    pose proof (internal_keys_distinct c) as (_ & Hra & Hsa).
    split; [| split].
    + rewrite containsSlowConsumerAlert_lookup, Halert.
      apply bool_decide_eq_false. intros [? ?]. discriminate.
    + rewrite lookup_snapshot.
      rewrite decide_False, decide_False, decide_True by congruence.
      now rewrite Halert.
    + rewrite lookup_snapshot_other; [exact Hv |].
      cbn. destruct Ht as [-> | ->]; discriminate.
Qed.

Lemma internal_keys_apart_from_ingested_witness :
  let c := set_metricPoints
             {[ lookalike_key example_client events.Envelope_ValueMetric "" "" :=
                  {| tags := [ "deployment=prod"; "ip=1.2.3.4" ];
                     points := [ {| Timestamp := 3; Value := float_3_5 |} ] |} ]}
             example_client in
  let w := still_world 9 (http.Failed "down") in
  metricPoints (populateInternalMetrics (c, w)).2.1 !! alert_key c = Some (healthy_entry c w)
  ∧ is_Some (metricPoints (populateInternalMetrics (c, w)).2.1
               !! lookalike_key c events.Envelope_ValueMetric "" "").
Proof.
  cbv zeta.
  destruct (proj2 (proj2 (proj2 (proj2 (proj2 (proj2 internal_keys_apart_from_ingested)))))
              (set_metricPoints
                 {[ lookalike_key example_client events.Envelope_ValueMetric "" "" :=
                      {| tags := [ "deployment=prod"; "ip=1.2.3.4" ];
                         points := [ {| Timestamp := 3; Value := float_3_5 |} ] |} ]}
                 example_client)
              (still_world 9 (http.Failed "down"))
              events.Envelope_ValueMetric "" ""
              {| tags := [ "deployment=prod"; "ip=1.2.3.4" ];
                 points := [ {| Timestamp := 3; Value := float_3_5 |} ] |})
    as (_ & Halert & Hkept).
  - left. reflexivity.
  - vm_compute. reflexivity.
  - vm_compute. reflexivity.
  - split; [exact Halert |]. rewrite Hkept. eauto.
Defined.

(** ** Envelopes without payload *)

(** The value-metric envelope without payload is ingested like any
    other: [AddMetric] returns, and the mapping holds an entry named
    after the origin alone with one point of value 0. *)
Lemma bare_envelope_is_ingested :
  let s := (example_client, still_world 0 (http.Failed "down")) in
  supported bare_envelope
  ∧ lacks_payload bare_envelope
  ∧ (AddMetric bare_envelope s).1 = Returns tt
  ∧ (∀ msg, (AddMetric bare_envelope s).1 ≠ Panics msg)
  ∧ metricPoints (AddMetric bare_envelope s).2.1
      !! mkKey events.Envelope_ValueMetric "router." "prod" "web" "0" "10.0.0.1"
    = Some {| tags := [ "deployment=prod"; "job=web"; "index=0"; "ip=10.0.0.1" ];
              points := [ {| Timestamp := 1; Value := S754_zero false |} ] |}.
Proof.
  cbv zeta. split; [left; reflexivity |]. split; [left; split; reflexivity |].
  rewrite AddMetric_ingest. cbn [fst snd].
  split; [reflexivity |]. split; [discriminate |].
  vm_compute. reflexivity.
Qed.

(** C8, as the code has it. [AddMetric] returns for every envelope: the
    getters of the envelope are nil-safe, so a value-metric or
    counter-event envelope without its payload is ingested under the
    name made of the origin and a dot, with a point of value 0.  The
    panic of [getName] and [getValue] is for the other kinds only, and
    [AddMetric] has dropped those before it calls them. *)
Theorem ingest_never_aborts (envelope : option events.Envelope) (c : Client) (w : World) :
  AddMetric envelope (c, w) = (Returns tt, (ingest envelope c, w))
  ∧ (supported envelope → lacks_payload envelope →
       name (identity envelope) = events.GetOrigin envelope +:+ "."
       ∧ Value (observation envelope) = S754_zero false
       ∧ ∃ v, metricPoints (ingest envelope c) !! identity envelope = Some v
              ∧ list.last (points v) = Some (observation envelope))
  ∧ (¬ supported envelope →
       getName envelope = Panics "Unknown event type"
       ∧ getValue envelope = Panics "Unknown event type"
       ∧ metricPoints (ingest envelope c) = metricPoints c).
Proof.
  split; [apply AddMetric_ingest |]. split.
  - intros Hs Hlack. split; [| split].
    + cbn [identity name]. unfold derived_name, payload_name.
      destruct Hlack as [[Ht Hp] | [Ht Hp]].
      * rewrite decide_True by exact Ht. rewrite Hp. cbn. now rewrite append_empty_r.
      * rewrite decide_False by (rewrite Ht; discriminate).
        rewrite Hp. cbn. now rewrite append_empty_r.
    + cbn [observation Value]. unfold payload_value.
      destruct Hlack as [[Ht Hp] | [Ht Hp]].
      * rewrite decide_True by exact Ht. rewrite Hp. reflexivity.
      * rewrite decide_False by (rewrite Ht; discriminate).
        rewrite Hp. reflexivity.
    + eexists. rewrite lookup_ingest.
      rewrite decide_True by (split; [exact Hs | reflexivity]).
      split; [reflexivity |]. cbn [points]. apply last_snoc.
  - intros Hn. unfold supported in Hn.
    unfold getName, getValue, ingest.
    rewrite !decide_False by tauto.
    repeat split; reflexivity.
Qed.

Lemma ingest_never_aborts_witness :
  name (identity bare_envelope) = "router."
  ∧ Value (observation bare_envelope) = S754_zero false.
Proof.
  destruct (proj1 (proj2 (ingest_never_aborts bare_envelope example_client
                            (still_world 0 (http.Failed "down")))))
    as (Hname & Hvalue & _).
  - left. reflexivity.
  - left. split; reflexivity.
  - split; [exact Hname | exact Hvalue].
Defined.

(** * Further properties of the client *)

(** ** Ingest: counters, keys and points *)

Lemma AddMetrics_ingest_all (envelopes : list (option events.Envelope))
    (c : Client) (w : World) :
  AddMetrics envelopes (c, w) = (Returns tt, (ingest_all envelopes c, w)).
Proof. apply AddMetrics_spec. Qed.

Lemma ingest_counters (envelope : option events.Envelope) (c : Client) :
  totalMessagesReceived (ingest envelope c) = Int.uint64 (totalMessagesReceived c + 1)
  ∧ totalMetricsSent (ingest envelope c) = totalMetricsSent c.
Proof. unfold ingest. case_decide; split; reflexivity. Qed.

Lemma uint64_add_l (a b : Z) : Int.uint64 (Int.uint64 a + b) = Int.uint64 (a + b).
Proof. unfold Int.uint64, Int.wrap_unsigned. apply Zplus_mod_idemp_l. Qed.

Lemma ingest_all_counters (envelopes : list (option events.Envelope)) (c : Client) :
  Int.in_uint64 (totalMessagesReceived c) →
  totalMessagesReceived (ingest_all envelopes c) =
    Int.uint64 (totalMessagesReceived c + Z.of_nat (length envelopes))
  ∧ totalMetricsSent (ingest_all envelopes c) = totalMetricsSent c.
Proof.
  unfold ingest_all. revert c.
  induction envelopes as [| envelope rest IH]; intros c Hc.
  - cbn [foldl length]. rewrite Z.add_0_r. split; [| reflexivity].
    symmetry. now apply uint64_id.
  - cbn [foldl length]. destruct (ingest_counters envelope c) as [Hr Hs].
    destruct (IH (ingest envelope c)) as [IHr IHs].
    { rewrite Hr. apply uint64_in_range. }
    rewrite IHr, IHs, Hr, Hs, uint64_add_l. split; [| reflexivity].
    f_equal. lia.
Qed.

(** X1. [totalMessagesReceived] counts every envelope handed to
    [AddMetric], whatever its kind, modulo 2^64; ingesting never changes
    [totalMetricsSent]. *)
Theorem received_counts_every_envelope (envelopes : list (option events.Envelope))
    (c : Client) (w : World) :
  Int.in_uint64 (totalMessagesReceived c) →
  ∃ c' : Client,
    AddMetrics envelopes (c, w) = (Returns tt, (c', w))
    ∧ totalMessagesReceived c' =
        (totalMessagesReceived c + Z.of_nat (length envelopes)) mod 2 ^ 64
    ∧ (totalMessagesReceived c + Z.of_nat (length envelopes) <= Int.max_uint64 →
       totalMessagesReceived c' = totalMessagesReceived c + Z.of_nat (length envelopes))
    ∧ totalMetricsSent c' = totalMetricsSent c.
Proof.
  intros Hc. exists (ingest_all envelopes c).
  destruct (ingest_all_counters envelopes c Hc) as [Hr Hs].
  split; [apply AddMetrics_ingest_all |]. split; [exact Hr |]. split; [| exact Hs].
  intros Hle. rewrite Hr. apply uint64_id.
  unfold Int.in_uint64 in *. lia.
Qed.

Lemma received_counts_every_envelope_witness :
  ∃ c' : Client,
    AddMetrics [ None; bare_envelope; cpu_envelope "web" 1500000000 float_3_5 ]
      (example_client, still_world 0 (http.Failed "down"))
    = (Returns tt, (c', still_world 0 (http.Failed "down")))
    ∧ totalMessagesReceived c' = 3.
Proof.
  destruct (received_counts_every_envelope
              [ None; bare_envelope; cpu_envelope "web" 1500000000 float_3_5 ]
              example_client (still_world 0 (http.Failed "down")))
    as (c' & Hrun & _ & Hexact & _).
  - vm_compute. split; discriminate.
  - exists c'. split; [exact Hrun |]. apply Hexact. vm_compute. discriminate.
Defined.

Lemma ingest_unsupported (envelope : option events.Envelope) (c : Client) :
  ¬ supported envelope → metricPoints (ingest envelope c) = metricPoints c.
Proof. intros H. unfold ingest. now rewrite decide_False. Qed.

(** X2. An envelope of any other kind than value metric and counter
    event is dropped: [AddMetric] returns and the mapping is left as it
    was.  A nil envelope and an envelope without an event type are of
    such a kind. *)
Theorem unsupported_envelopes_are_dropped :
  ¬ supported None
  ∧ (∀ e : events.Envelope, events.env_EventType e = None → ¬ supported (Some e))
  ∧ (∀ (envelopes : list (option events.Envelope)) (c : Client) (w : World),
       Forall (fun envelope => ¬ supported envelope) envelopes →
       ∃ c' : Client,
         AddMetrics envelopes (c, w) = (Returns tt, (c', w))
         ∧ metricPoints c' = metricPoints c).
Proof.
  split; [| split].
  - intros [H | H]; discriminate.
  - intros e He [H | H]; unfold events.GetEventType in H; cbn in H;
      rewrite He in H; discriminate.
  - intros envelopes c w Hall. exists (ingest_all envelopes c).
    split; [apply AddMetrics_ingest_all |].
    unfold ingest_all. revert c.
    induction Hall as [| e rest He _ IH]; intros c; [reflexivity |].
    cbn [foldl]. rewrite IH. now apply ingest_unsupported.
Qed.

Lemma unsupported_envelopes_are_dropped_witness :
  ∃ c' : Client,
    AddMetrics [ log_envelope; None ] (single_entry_client, still_world 0 (http.Failed "down"))
    = (Returns tt, (c', still_world 0 (http.Failed "down")))
    ∧ metricPoints c' = metricPoints single_entry_client.
Proof.
  apply (proj2 (proj2 unsupported_envelopes_are_dropped)).
  repeat constructor; intros [H | H]; discriminate.
Defined.

Lemma entry_after_is_Some (old : option metricValue) (fed : list (option events.Envelope)) :
  is_Some (entry_after old fed) ↔ is_Some old ∨ fed ≠ [].
Proof.
  unfold entry_after. destruct (list.last fed) as [e |] eqn:Hl.
  - split; [| eauto]. intros _. right. intros ->. discriminate.
  - apply last_None in Hl. subst fed. split; [tauto |]. intros [H | H]; [exact H | contradiction].
Qed.

Lemma filter_feeds_nonempty (k : metricKey) (envelopes : list (option events.Envelope)) :
  filter (feeds k) envelopes ≠ [] ↔ ∃ envelope, envelope ∈ envelopes ∧ feeds k envelope.
Proof.
  split.
  - intros Hne. destruct (filter (feeds k) envelopes) as [| e l] eqn:Hf; [contradiction |].
    assert (He : e ∈ filter (feeds k) envelopes) by (rewrite Hf; left).
    apply list_elem_of_filter in He. exists e. tauto.
  - intros (e & Hin & Hfeeds) Hnil.
    assert (He : e ∈ filter (feeds k) envelopes) by (apply list_elem_of_filter; tauto).
    rewrite Hnil in He. inversion He.
Qed.

(** X3. After a sequence of ingests the mapping has an entry at a key
    exactly when it had one before or one of the envelopes was of a
    supported kind with that key as its identity: envelopes with
    different identities never share an entry. *)
Theorem entries_are_the_identities_fed (envelopes : list (option events.Envelope))
    (c : Client) (w : World) :
  ∃ c' : Client,
    AddMetrics envelopes (c, w) = (Returns tt, (c', w))
    ∧ ∀ k : metricKey,
        is_Some (metricPoints c' !! k) ↔
        is_Some (metricPoints c !! k)
        ∨ ∃ envelope, envelope ∈ envelopes ∧ supported envelope ∧ identity envelope = k.
Proof.
  exists (ingest_all envelopes c). split; [apply AddMetrics_ingest_all |].
  intros k. unfold ingest_all. rewrite lookup_ingest_all, entry_after_is_Some.
  rewrite filter_feeds_nonempty. unfold feeds. reflexivity.
Qed.

(** ** The number of points *)

Lemma total_points_insert_None (m : gmap metricKey metricValue) (k : metricKey)
    (v : metricValue) :
  m !! k = None →
  total_points (<[ k := v ]> m) = (length (points v) + total_points m)%nat.
Proof.
  intros Hk. unfold total_points.
  apply (map_fold_insert_L (fun _ v n => (length (points v) + n)%nat)); [| exact Hk].
  intros. lia.
Qed.

Lemma total_points_insert_Some (m : gmap metricKey metricValue) (k : metricKey)
    (old v : metricValue) :
  m !! k = Some old →
  (total_points (<[ k := v ]> m) + length (points old) =
   length (points v) + total_points m)%nat.
Proof.
  intros Hk.
  assert (Hv : total_points (<[ k := v ]> m) =
               (length (points v) + total_points (delete k m))%nat).
  { rewrite <- (insert_delete_eq m k v).
    apply total_points_insert_None, lookup_delete_eq. }
  assert (Hold : total_points m =
                 (length (points old) + total_points (delete k m))%nat).
  { rewrite <- (insert_delete_id m k old Hk) at 1.
    apply total_points_insert_None, lookup_delete_eq. }
  lia.
Qed.

Lemma total_points_ingest (envelope : option events.Envelope) (c : Client) :
  total_points (metricPoints (ingest envelope c)) =
  (total_points (metricPoints c) + if decide (supported envelope) then 1 else 0)%nat.
Proof.
  unfold ingest. case_decide as Hs; [| cbn; lia].
  cbn [metricPoints set_metricPoints set_totalMessagesReceived].
  destruct (metricPoints c !! identity envelope) as [old |] eqn:Hk.
  - pose proof (total_points_insert_Some (metricPoints c) (identity envelope) old
      {| tags := getTags envelope; points := (points old ++ [ observation envelope ])%list |}
      Hk) as H.
    cbn [default from_option id points] in *. rewrite length_app in H. cbn [length] in H. lia.
  - rewrite total_points_insert_None by exact Hk.
    cbn [default zero_metricValue points app length]. lia.
Qed.

(** X4. Ingesting neither loses nor duplicates a point: over a sequence
    of envelopes the number of points held by the mapping grows by the
    number of envelopes of a supported kind. *)
Theorem points_are_conserved (envelopes : list (option events.Envelope))
    (c : Client) (w : World) :
  ∃ c' : Client,
    AddMetrics envelopes (c, w) = (Returns tt, (c', w))
    ∧ total_points (metricPoints c') =
        (total_points (metricPoints c) + length (filter supported envelopes))%nat.
Proof.
  exists (ingest_all envelopes c). split; [apply AddMetrics_ingest_all |].
  unfold ingest_all. revert c.
  induction envelopes as [| envelope rest IH]; intros c.
  - cbn. lia.
  - cbn [foldl]. rewrite IH, total_points_ingest, filter_cons.
    case_decide; cbn [length]; lia.
Qed.

Lemma GetTimestamp_in_range (envelope : option events.Envelope) :
  Int.in_int64 (events.GetTimestamp envelope).
Proof.
  unfold events.GetTimestamp. destruct (events.field _ _).
  - apply int64_in_range.
  - unfold Int.in_int64, Int.min_int64, Int.max_int64. lia.
Qed.

(** X5. The timestamp of an ingested point is the envelope's timestamp
    cut to whole seconds towards zero: written back in nanoseconds by
    the serializer it is the envelope's timestamp with the part below a
    second cleared, less than a second away from it and never wrapped
    around. *)
Theorem ingested_timestamp_truncates (envelope : option events.Envelope) (s : state) :
  let nanos := events.GetTimestamp envelope in
  let written := seconds_to_nanos (Timestamp (observation envelope)) in
  formatTimestamp [ observation envelope ] s = (Returns (strconv.FormatInt written), s)
  ∧ written = nanos - Z.rem nanos 1000000000
  ∧ Z.abs (nanos - written) < 1000000000
  ∧ Z.abs written <= Z.abs nanos
  ∧ Int.in_int64 written.
Proof.
  cbv zeta. split; [reflexivity |].
  pose proof (GetTimestamp_in_range envelope) as Hr.
  cbn [observation Timestamp].
  rewrite (seconds_to_nanos_no_overflow _ Hr).
  set (nanos := events.GetTimestamp envelope) in *.
  pose proof (Z.quot_rem' nanos 1000000000) as Hqr.
  pose proof (Z.rem_bound_abs nanos 1000000000 ltac:(lia)) as Hb.
  unfold time_Second.
  assert (Hw : Z.quot nanos 1000000000 * 1000000000 = nanos - Z.rem nanos 1000000000) by lia.
  rewrite Hw.
  assert (Hsign : (0 <= nanos ∧ 0 <= Z.rem nanos 1000000000)
                  ∨ (nanos <= 0 ∧ Z.rem nanos 1000000000 <= 0)).
  { destruct (Z.le_ge_cases 0 nanos).
    - left. split; [assumption |]. apply Z.rem_nonneg; lia.
    - right. split; [assumption |]. apply Z.rem_nonpos; lia. }
  unfold Int.in_int64, Int.min_int64, Int.max_int64 in *.
  repeat split; lia.
Qed.

(** ** Ingests commute across identities *)

Lemma ingest_ingest_ne (a b : option events.Envelope) (c : Client) :
  identity a ≠ identity b →
  ingest a (ingest b c) = ingest b (ingest a c).
Proof.
  intros Hne. unfold ingest.
  destruct (decide (supported a)) as [Ha | Ha], (decide (supported b)) as [Hb | Hb];
    cbn [metricPoints set_metricPoints set_totalMessagesReceived totalMessagesReceived
         url database user password prefix c_deployment c_ip totalMetricsSent];
    try reflexivity.
  rewrite !lookup_insert_ne by congruence.
  unfold set_metricPoints, set_totalMessagesReceived.
  cbn [metricPoints totalMessagesReceived url database user password prefix
       c_deployment c_ip totalMetricsSent].
  f_equal. apply insert_insert_ne. congruence.
Qed.

(** X6. Two ingests commute when the envelopes have different
    identities: the state after them does not depend on their order. *)
Theorem ingests_of_distinct_identities_commute (a b : option events.Envelope)
    (c : Client) (w : World) :
  identity a ≠ identity b →
  AddMetrics [ a; b ] (c, w) = AddMetrics [ b; a ] (c, w).
Proof.
  intros Hne. rewrite !AddMetrics_ingest_all. unfold ingest_all. cbn [foldl].
  now rewrite ingest_ingest_ne.
Qed.

Lemma ingests_of_distinct_identities_commute_witness :
  AddMetrics [ cpu_envelope "web" 1500000000 float_3_5;
               cpu_envelope "db" 2500000000 float_3_5 ]
    (example_client, still_world 0 (http.Failed "down"))
  = AddMetrics [ cpu_envelope "db" 2500000000 float_3_5;
                 cpu_envelope "web" 1500000000 float_3_5 ]
      (example_client, still_world 0 (http.Failed "down")).
Proof.
  apply ingests_of_distinct_identities_commute.
  intros H. apply (f_equal job) in H. discriminate.
Defined.

(** ** Well-formed entries in every run *)

Lemma getTags_key_tags (envelope : option events.Envelope) :
  getTags envelope = key_tags (identity envelope).
Proof. reflexivity. Qed.

Lemma entry_inv_config (c c' : Client) (k : metricKey) (v : metricValue) :
  same_config c c' → entry_inv c k v → entry_inv c' k v.
Proof.
  intros Hcfg. destruct (same_config_internal c c' Hcfg) as [Hk He].
  unfold entry_inv, received_key, sent_key, alert_key.
  rewrite !Hk. intros [(Hin & t & n & ->) | H]; [left | right; exact H].
  split; [exact Hin |]. exists t, n. now rewrite He.
Qed.

Lemma quot64_in_range (a b : Z) : Int.in_int64 (Int.quot64 a b).
Proof. apply int64_in_range. Qed.

Lemma internal_keys_type (c : Client) (k : metricKey) :
  k ∈ [ received_key c; sent_key c; alert_key c ] → eventType k = 0.
Proof.
  intros Hin. repeat (apply elem_of_cons in Hin as [-> | Hin]; [reflexivity |]).
  inversion Hin.
Qed.

Lemma well_formed_ingest (envelope : option events.Envelope) (c : Client) :
  well_formed c → well_formed (ingest envelope c).
Proof.
  intros H k v Hk. apply (entry_inv_config c _ k v (ingest_config envelope c)).
  rewrite lookup_ingest in Hk. case_decide as Hf; [| exact (H k v Hk)].
  injection Hk as <-. right. destruct Hf as [Hs <-].
  split; [exact Hs |]. split; [apply getTags_key_tags |]. cbn [points].
  split.
  - intros Heq. apply app_eq_nil in Heq as [_ Heq]. discriminate.
  - apply Forall_app. split; [| repeat constructor; apply quot64_in_range].
    destruct (metricPoints c !! identity envelope) as [old |] eqn:Hold; [| constructor].
    destruct (H _ _ Hold) as [(Hin & _) | (_ & _ & _ & Hts)]; [| exact Hts].
    apply internal_keys_type in Hin. destruct Hs as [Hs | Hs];
      cbn in Hin, Hs; rewrite Hin in Hs; discriminate.
Qed.

Lemma well_formed_with_internal (n : string) (t value : Z) (c : Client) :
  internal_key c n ∈ [ received_key c; sent_key c; alert_key c ] →
  well_formed c → well_formed (with_internal n t value c).
Proof.
  intros Hn H k v Hk. rewrite lookup_with_internal in Hk.
  assert (Hcfg : same_config c (with_internal n t value c)) by (repeat split).
  apply (entry_inv_config c _ k v Hcfg).
  case_decide as Heq; [| exact (H k v Hk)].
  subst k. injection Hk as <-. left. split; [exact Hn |]. eauto.
Qed.

Lemma well_formed_snapshot (c : Client) (w : World) :
  well_formed c → well_formed (snapshot (c, w)).1.
Proof.
  intros H. rewrite snapshot_eq. cbv zeta.
  assert (H1 : well_formed (with_internal "totalMessagesReceived" (reading w)
                              (totalMessagesReceived c) c)).
  { apply well_formed_with_internal; [set_solver | exact H]. }
  assert (H2 : well_formed (with_internal "totalMetricsSent" (reading (advance w))
                 (totalMetricsSent c)
                 (with_internal "totalMessagesReceived" (reading w)
                    (totalMessagesReceived c) c))).
  { apply well_formed_with_internal; [| exact H1].
    unfold received_key, sent_key, alert_key. rewrite !internal_key_with_internal.
    set_solver. }
  destruct (containsSlowConsumerAlert _); cbn [fst]; [exact H2 |].
  apply well_formed_with_internal; [| exact H2].
  unfold received_key, sent_key, alert_key. rewrite !internal_key_with_internal.
  set_solver.
Qed.

Lemma well_formed_step (op : Op) (c : Client) (w : World) :
  well_formed c → well_formed (step op (c, w)).2.1.
Proof.
  intros H. pose proof (step_cases op c w) as Hop.
  destruct op as [envelope | | |].
  - destruct Hop as [_ ->]. now apply well_formed_ingest.
  - destruct Hop as [_ ->]. apply well_formed_with_internal; [set_solver | exact H].
  - destruct Hop as [_ ->]. now apply well_formed_snapshot.
  - destruct Hop as [(_ & Hempty & _) | (_ & ->)].
    + unfold well_formed. rewrite Hempty. apply map_Forall_empty.
    + now apply well_formed_snapshot.
Qed.

Lemma well_formed_run (ops : list Op)
    (url database user password pfx deployment ip : string) (w0 : World) :
  well_formed (run ops (New url database user password pfx deployment ip, w0) false).1.1.
Proof.
  apply (run_invariant (fun c _ => well_formed c)
           (fun op c w _ => well_formed_step op c w)).
  unfold well_formed. cbn. apply map_Forall_empty.
Qed.

Lemma same_config_trans (a b c : Client) :
  same_config a b → same_config b c → same_config a c.
Proof. unfold same_config. intros H1 H2. repeat split; intuition congruence. Qed.

Lemma step_same_config (op : Op) (c : Client) (w : World) :
  same_config c (step op (c, w)).2.1.
Proof.
  pose proof (step_cases op c w) as Hop. destruct op as [envelope | | |].
  - destruct Hop as [_ ->]. apply ingest_config.
  - destruct Hop as [_ ->]. repeat split.
  - destruct Hop as [_ ->]. apply snapshot_same_config.
  - destruct Hop as [(_ & _ & Hcfg) | (_ & ->)]; [exact Hcfg | apply snapshot_same_config].
Qed.

Lemma run_same_config (ops : list Op) (c : Client) (w : World) (a : bool) :
  same_config c (run ops (c, w) a).1.1.
Proof.
  revert c w a. induction ops as [| op ops IH]; intros c w a; [repeat split |].
  cbn [run]. pose proof (step_same_config op c w) as Hstep.
  destruct (step op (c, w)) as [r [c' w']]. cbn [fst snd] in Hstep.
  eapply same_config_trans; [exact Hstep | apply IH].
Qed.

(** X7. In every state reached from [New], an entry whose key has the
    event type 0 is one of the three internal metrics, and it holds
    exactly one point and the two tags of the client's address and
    deployment: an internal metric is replaced at each write, never
    appended to. *)
Theorem internal_entries_hold_one_point
    (url database user password pfx deployment ip : string)
    (w0 : World) (ops : list Op) (k : metricKey) (v : metricValue) :
  let c := (run ops (New url database user password pfx deployment ip, w0) false).1.1 in
  metricPoints c !! k = Some v →
  eventType k = 0 →
  (name k = "totalMessagesReceived" ∨ name k = "totalMetricsSent"
   ∨ name k = "slowConsumerAlert")
  ∧ k = internal_key c (name k)
  ∧ length (points v) = 1%nat
  ∧ tags v = [ "ip=" +:+ ip; "deployment=" +:+ deployment ].
Proof.
  cbv zeta. intros Hk Htype.
  pose proof (well_formed_run ops url database user password pfx deployment ip w0 k v Hk)
    as Hinv.
  pose proof (run_same_config ops (New url database user password pfx deployment ip)
                w0 false) as (_ & _ & _ & Hd & Hi).
  cbn [c_deployment c_ip New] in Hd, Hi.
  destruct Hinv as [(Hin & t & n & ->) | ([Ht | Ht] & _)];
    [| rewrite Htype in Ht; discriminate ..].
  split; [| split; [| split]].
  - repeat (apply elem_of_cons in Hin as [-> | Hin]; [cbn; tauto |]). inversion Hin.
  - repeat (apply elem_of_cons in Hin as [-> | Hin]; [reflexivity |]). inversion Hin.
  - reflexivity.
  - cbn [internal_entry tags]. now rewrite Hd, Hi.
Qed.

Lemma internal_entries_hold_one_point_witness :
  let c := (run [ RecordAlert; RecordAlert; Snapshot; Flush ]
              (example_client, still_world 7 (http.Failed "down")) false).1.1 in
  ∃ v, metricPoints c !! alert_key c = Some v ∧ length (points v) = 1%nat.
Proof.
  cbv zeta.
  set (c := (run _ (example_client, still_world 7 (http.Failed "down")) false).1.1).
  assert (Hsome : is_Some (metricPoints c !! alert_key c)) by (vm_compute; eauto).
  destruct Hsome as [v Hv]. exists v. split; [exact Hv |].
  exact (proj1 (proj2 (proj2
           (internal_entries_hold_one_point "http://influx:8086" "metrics" "" "" "app."
              "prod" "1.2.3.4" (still_world 7 (http.Failed "down"))
              [ RecordAlert; RecordAlert; Snapshot; Flush ] (alert_key c) v Hv eq_refl)))).
Defined.

(** X8. In every state reached from [New], the tags of an ingested
    entry are those of its key, the non-empty ones among deployment,
    job, index and address in this order: the tags are a function of the
    identity, and the timestamps of its points are whole seconds within
    [int64]. *)
Theorem ingested_tags_follow_from_key
    (url database user password pfx deployment ip : string)
    (w0 : World) (ops : list Op) (k : metricKey) (v : metricValue) :
  let c := (run ops (New url database user password pfx deployment ip, w0) false).1.1 in
  metricPoints c !! k = Some v →
  eventType k ≠ 0 →
  (eventType k = events.Envelope_ValueMetric ∨ eventType k = events.Envelope_CounterEvent)
  ∧ tags v = key_tags k
  ∧ Forall (fun p => Int.in_int64 (Timestamp p)) (points v).
Proof.
  cbv zeta. intros Hk Htype.
  pose proof (well_formed_run ops url database user password pfx deployment ip w0 k v Hk)
    as [(Hin & _) | (Ht & Htags & _ & Hts)].
  - apply internal_keys_type in Hin. contradiction.
  - auto.
Qed.

Lemma ingested_tags_follow_from_key_witness :
  let c := (run [ Ingest (cpu_envelope "web" 1500000000 float_3_5); Snapshot ]
              (example_client, still_world 7 (http.Failed "down")) false).1.1 in
  ∃ v, metricPoints c !! identity (cpu_envelope "web" 0 float_3_5) = Some v
       ∧ tags v = [ "deployment=prod"; "job=web"; "index=0"; "ip=10.0.0.1" ].
Proof.
  cbv zeta.
  set (c := (run _ (example_client, still_world 7 (http.Failed "down")) false).1.1).
  assert (Hsome : is_Some (metricPoints c !! identity (cpu_envelope "web" 0 float_3_5)))
    by (vm_compute; eauto).
  destruct Hsome as [v Hv]. exists v. split; [exact Hv |].
  destruct (ingested_tags_follow_from_key "http://influx:8086" "metrics" "" "" "app."
              "prod" "1.2.3.4" (still_world 7 (http.Failed "down"))
              [ Ingest (cpu_envelope "web" 1500000000 float_3_5); Snapshot ]
              (identity (cpu_envelope "web" 0 float_3_5)) v Hv) as (_ & Htags & _).
  - discriminate.
  - rewrite Htags. reflexivity.
Defined.

(** ** The outcome of a flush *)

Lemma flush_request_parses (c : Client) (w : World) :
  flush_request (c, w) =
  if url_parses w (seriesURL c)
  then match (batch (c, w)).1 with
       | Returns (body, _) => Some (http.mkRequest "POST" (seriesURL c) body)
       | Panics _ => None
       end
  else None.
Proof.
  unfold flush_request.
  destruct (batch_returns c w) as (body & w1 & Hb & Hu & _).
  rewrite Hb. cbn [fst snd]. now rewrite Hu.
Qed.

(** X9. A flush returns nil exactly on a status from 200 to 299; it
    returns the transport's own error when the transport fails, and an
    error naming the status text on any other status.  When the URL does
    not parse, the error of [http.NewRequest] is dropped and the flush
    panics on the nil request, after the snapshot and before anything
    is sent. *)
Theorem flush_outcome (c : Client) (w : World) :
  match transport_answer (c, w) with
  | Some (http.Failed err) => (PostMetrics (c, w)).1 = Returns (Some err)
  | Some (http.Answered resp) =>
      (PostMetrics (c, w)).1 =
      if decide (200 <= http.StatusCode resp < 300)
      then Returns None
      else Returns (Some ("InfluxDB request returned HTTP response: " +:+ http.Status resp))
  | None =>
      url_parses w (seriesURL c) = false
      ∧ (PostMetrics (c, w)).1 = Panics "invalid memory address or nil pointer dereference"
      ∧ (PostMetrics (c, w)).2.1 = (snapshot (c, w)).1
      ∧ sent (PostMetrics (c, w)).2.2 = sent w
  end.
Proof.
  unfold transport_answer. rewrite flush_request_parses, PostMetrics_unfold.
  destruct (batch_returns c w) as (body & w1 & Hb & Hu & Hs).
  rewrite Hb. cbn [fst snd]. rewrite Hu.
  destruct (url_parses w (seriesURL c)); [| repeat split; assumption].
  cbv zeta. destruct (server w1 (tick w1) _) as [err | resp]; [reflexivity |].
  destruct (decide (200 <= http.StatusCode resp < 300)) as [Hok | Hbad].
  - replace ((300 <=? http.StatusCode resp) || (http.StatusCode resp <? 200))
      with false by (symmetry; apply orb_false_iff; rewrite Z.leb_gt, Z.ltb_ge; lia).
    reflexivity.
  - replace ((300 <=? http.StatusCode resp) || (http.StatusCode resp <? 200))
      with true by (symmetry; apply orb_true_iff; rewrite Z.leb_le, Z.ltb_lt; lia).
    reflexivity.
Qed.

(** X10. A flush hands the transport one request when the URL parses: a
    POST to [url/write?db=database] whose body is the serialized batch;
    it is sent whatever the answer turns out to be.  When the URL does
    not parse, nothing is sent. *)
Theorem flush_sends_one_post (c : Client) (w : World) :
  ∃ (body : string) (n : Z),
    (batch (c, w)).1 = Returns (body, n)
    ∧ sent (PostMetrics (c, w)).2.2 =
      if url_parses w (seriesURL c)
      then {| http.Method := "POST";
              http.URL := url c +:+ "/write?db=" +:+ database c;
              http.Body := body |} :: sent w
      else sent w.
Proof.
  destruct (batch_returns c w) as (body & w1 & Hb & Hu & Hs).
  exists body. eexists. rewrite PostMetrics_unfold, Hb. cbn [fst snd].
  split; [reflexivity |]. rewrite Hu.
  destruct (url_parses w (seriesURL c)); [| exact Hs].
  cbv zeta.
  match goal with
  | |- context [server ?a ?b ?r] => destruct (server a b r) as [err | resp]
  end;
    [| match goal with |- context [?a || ?b] => destruct (a || b) end];
    cbn [fst snd advance record_request sent]; now rewrite Hs.
Qed.

(** ** The size of a batch *)

Lemma snapshot_has_internal (c : Client) (w : World) :
  metricPoints (snapshot (c, w)).1 !! received_key c = Some (received_entry c w)
  ∧ metricPoints (snapshot (c, w)).1 !! sent_key c = Some (sent_entry c w)
  ∧ is_Some (metricPoints (snapshot (c, w)).1 !! alert_key c).
Proof.
  pose proof (internal_keys_distinct c) as (Hrs & Hra & Hsa).
  rewrite !lookup_snapshot.
  rewrite decide_True by reflexivity.
  rewrite decide_False, decide_True by congruence.
  rewrite decide_False, decide_False, decide_True by congruence.
  eauto.
Qed.

Lemma size_with_internal (n : string) (t v : Z) (c : Client) :
  (size (metricPoints c) <= size (metricPoints (with_internal n t v c))
   <= S (size (metricPoints c)))%nat.
Proof.
  unfold with_internal. cbn [metricPoints set_metricPoints].
  rewrite map_size_insert. destruct (metricPoints c !! _); cbn; lia.
Qed.

Lemma size_snapshot (c : Client) (w : World) :
  (3 <= size (metricPoints (snapshot (c, w)).1)
   ∧ size (metricPoints c) <= size (metricPoints (snapshot (c, w)).1)
     <= size (metricPoints c) + 3)%nat.
Proof.
  split.
  - pose proof (internal_keys_distinct c) as (Hrs & Hra & Hsa).
    destruct (snapshot_has_internal c w) as (Hr & Hs & Ha).
    rewrite <- (size_dom (D := gset metricKey)).
    assert (Hsub : ({[ received_key c; sent_key c; alert_key c ]} : gset metricKey)
                   ⊆ dom (metricPoints (snapshot (c, w)).1)).
    { intros k Hk. apply elem_of_dom.
      apply elem_of_union in Hk as [Hk | Hk];
        [apply elem_of_union in Hk as [Hk | Hk] |];
        apply elem_of_singleton in Hk; subst k; eauto. }
    apply subseteq_size in Hsub.
    rewrite size_union in Hsub.
    2:{ apply disjoint_singleton_r. intros Hin.
        apply elem_of_union in Hin as [Hin | Hin];
          apply elem_of_singleton in Hin; congruence. }
    rewrite size_union in Hsub.
    2:{ apply disjoint_singleton_r. intros Hin.
        apply elem_of_singleton in Hin. congruence. }
    rewrite !size_singleton in Hsub. lia.
  - rewrite snapshot_eq. cbv zeta.
    set (c1 := with_internal "totalMessagesReceived" _ _ c).
    set (c2 := with_internal "totalMetricsSent" _ _ c1).
    pose proof (size_with_internal "totalMessagesReceived" (reading w)
                  (totalMessagesReceived c) c) as H1. fold c1 in H1.
    pose proof (size_with_internal "totalMetricsSent" (reading (advance w))
                  (totalMetricsSent c) c1) as H2. fold c2 in H2.
    destruct (containsSlowConsumerAlert c2); cbn [fst]; [lia |].
    pose proof (size_with_internal "slowConsumerAlert"
                  (reading (advance (advance w))) 0 c2) as H3. lia.
Qed.

Lemma length_append (a b : string) :
  String.length (a +:+ b) = (String.length a + String.length b)%nat.
Proof.
  induction a as [| x a IH]; [reflexivity |].
  rewrite append_cons. cbn [String.length]. now rewrite IH.
Qed.

Lemma line_not_empty (p : string) (k : metricKey) (v : metricValue) (ts : string) :
  line p k v ts ≠ "".
Proof.
  unfold line, LF. intros H. apply (f_equal String.length) in H.
  rewrite !length_append in H. cbn [String.length] in H. lia.
Qed.

Lemma join_lines_empty (lines : list string) :
  Forall (fun ln => ln ≠ "") lines → join_lines lines = "" → lines = [].
Proof.
  intros Hall H. destruct Hall as [| ln rest Hne _]; [reflexivity |].
  unfold join_lines in H. cbn [foldr] in H.
  destruct ln; [contradiction | discriminate].
Qed.

Lemma lines_of_not_empty (p : string) (entries : list (metricKey * metricValue)) (w : World) :
  Forall (fun ln => ln ≠ "") (lines_of p entries w).1
  ∧ length (lines_of p entries w).1 = length entries.
Proof.
  pose proof (lines_of_is_line p entries w) as H.
  split; [| symmetry; eapply Forall2_length; exact H].
  induction H as [| [k v] ln entries lines (ts & -> & _) _ IH]; constructor; [| exact IH].
  apply line_not_empty.
Qed.

(** X11. The batch of a flush is never empty: the snapshot makes sure
    the three internal metrics are in the mapping, so the record count
    is at least 3, and it exceeds the number of entries held before the
    flush by at most 3. *)
Theorem batch_never_empty (c : Client) (w : World) :
  ∃ (body : string) (n : Z),
    (batch (c, w)).1 = Returns (body, n)
    ∧ body ≠ ""
    ∧ 3 <= n
    ∧ Z.of_nat (size (metricPoints c)) <= n <= Z.of_nat (size (metricPoints c)) + 3.
Proof.
  rewrite batch_spec. cbv zeta. cbn [fst].
  do 2 eexists. split; [reflexivity |].
  pose proof (size_snapshot c w) as (H3 & Hlo & Hhi).
  split; [| lia].
  match goal with
  | |- join_lines (lines_of ?p ?es ?w0).1 ≠ "" =>
      destruct (lines_of_not_empty p es w0) as [Hne Hlen];
      intros Hempty; apply (join_lines_empty _ Hne) in Hempty;
      rewrite Hempty in Hlen;
      pose proof (visit_perm (range_order (snapshot (c, w)).2 (tick (snapshot (c, w)).2))
                    (metricPoints (snapshot (c, w)).1)) as Hperm
  end.
  apply Permutation_length in Hperm. rewrite length_map_to_list in Hperm.
  cbn [length] in Hlen. lia.
Qed.

Lemma size_snapshot_fresh (c : Client) (w : World) :
  (∀ k, eventType k = 0 → metricPoints c !! k = None) →
  size (metricPoints (snapshot (c, w)).1) = (size (metricPoints c) + 3)%nat.
Proof.
  intros Hfresh.
  pose proof (internal_keys_distinct c) as (Hrs & Hra & Hsa).
  rewrite snapshot_eq. cbv zeta.
  set (c1 := with_internal "totalMessagesReceived" _ _ c).
  set (c2 := with_internal "totalMetricsSent" _ _ c1).
  assert (H1 : size (metricPoints c1) = S (size (metricPoints c))).
  { apply map_size_insert_None, Hfresh. reflexivity. }
  assert (H2 : size (metricPoints c2) = S (size (metricPoints c1))).
  { apply map_size_insert_None. unfold c1. rewrite lookup_with_internal.
    rewrite decide_False by exact Hrs. apply Hfresh. reflexivity. }
  assert (Ha : metricPoints c2 !! alert_key c = None).
  { unfold c2, c1. rewrite !lookup_with_internal, internal_key_with_internal.
    fold (sent_key c) (received_key c).
    rewrite decide_False, decide_False by assumption. apply Hfresh. reflexivity. }
  rewrite containsSlowConsumerAlert_lookup.
  change (alert_key c2) with (alert_key c). rewrite Ha.
  rewrite bool_decide_eq_false_2 by (intros [? ?]; discriminate).
  cbn [fst]. unfold with_internal at 1. cbn [metricPoints set_metricPoints].
  rewrite map_size_insert_None by exact Ha. lia.
Qed.

Lemma PostMetrics_client (c : Client) (w : World) :
  (PostMetrics (c, w)).2.1 =
  match transport_answer (c, w) with
  | Some (http.Answered resp) =>
      if decide (200 <= http.StatusCode resp < 300)
      then set_metricPoints ∅
             (set_totalMetricsSent
                (Int.add_u64 (totalMetricsSent c)
                   (Z.of_nat (size (metricPoints (snapshot (c, w)).1))))
                (snapshot (c, w)).1)
      else (snapshot (c, w)).1
  | _ => (snapshot (c, w)).1
  end.
Proof.
  unfold transport_answer. rewrite flush_request_parses, PostMetrics_unfold.
  destruct (batch_returns c w) as (body & w1 & Hb & Hu & Hs).
  rewrite Hb. cbn [fst snd]. rewrite Hu.
  destruct (url_parses w (seriesURL c)); [| reflexivity].
  cbv zeta. destruct (server w1 (tick w1) _) as [err | resp]; [reflexivity |].
  pose proof (snapshot_config c w) as (_ & _ & _ & _ & _ & _ & Hsent).
  destruct (decide (200 <= http.StatusCode resp < 300)) as [Hok | Hbad].
  - replace ((300 <=? http.StatusCode resp) || (http.StatusCode resp <? 200))
      with false by (symmetry; apply orb_false_iff; rewrite Z.leb_gt, Z.ltb_ge; lia).
    cbn [fst snd]. now rewrite Hsent.
  - replace ((300 <=? http.StatusCode resp) || (http.StatusCode resp <? 200))
      with true by (symmetry; apply orb_true_iff; rewrite Z.leb_le, Z.ltb_lt; lia).
    reflexivity.
Qed.

(** X12. [totalMetricsSent] counts the client's own metrics too: a
    successful flush of a mapping that holds ingested entries only adds
    their number plus 3 to the counter, modulo 2^64. *)
Theorem sent_counter_includes_internal_metrics (c : Client) (w : World)
    (rt : http.RoundTrip) :
  transport_answer (c, w) = Some rt →
  succeeded rt →
  (∀ k, eventType k = 0 → metricPoints c !! k = None) →
  totalMetricsSent (PostMetrics (c, w)).2.1 =
  (totalMetricsSent c + Z.of_nat (size (metricPoints c)) + 3) mod 2 ^ 64.
Proof.
  intros Hrt Hok Hfresh. rewrite PostMetrics_client, Hrt.
  destruct rt as [err | resp]; cbn in Hok; [contradiction |].
  rewrite decide_True by exact Hok.
  cbn [totalMetricsSent set_metricPoints set_totalMetricsSent].
  rewrite (size_snapshot_fresh c w Hfresh).
  unfold Int.add_u64, Int.uint64, Int.wrap_unsigned. f_equal. lia.
Qed.

Lemma sent_counter_includes_internal_metrics_witness :
  totalMetricsSent
    (PostMetrics (single_entry_client,
                  still_world 5 (http.Answered (http.mkResponse 200 "200 OK")))).2.1 = 4.
Proof.
  rewrite (sent_counter_includes_internal_metrics single_entry_client
             (still_world 5 (http.Answered (http.mkResponse 200 "200 OK")))
             (http.Answered (http.mkResponse 200 "200 OK"))).
  - vm_compute. reflexivity.
  - vm_compute. reflexivity.
  - cbn. lia.
  - intros k Hk. apply lookup_singleton_ne. intros <-. discriminate.
Defined.

(** X13. Nothing ingested is lost by a failed flush: every ingested
    entry of the mapping is still there afterwards, and the batch of the
    next flush has a line for it. *)
Theorem retry_resends_pending_entries (c : Client) (w : World) (rt : http.RoundTrip)
    (k : metricKey) (v : metricValue) :
  transport_answer (c, w) = Some rt →
  failed rt →
  metricPoints c !! k = Some v →
  eventType k ≠ 0 →
  let c1 := (PostMetrics (c, w)).2.1 in
  metricPoints c1 !! k = Some v
  ∧ ∀ w2 : World,
      ∃ (entries : list (metricKey * metricValue)) (lines : list string) (n : Z),
        (batch (c1, w2)).1 = Returns (join_lines lines, n)
        ∧ Forall2 (is_line_of (prefix c)) entries lines
        ∧ (k, v) ∈ entries.
Proof.
  intros Hrt Hfail Hk Htype. cbv zeta.
  assert (Hc1 : (PostMetrics (c, w)).2.1 = (snapshot (c, w)).1).
  { rewrite PostMetrics_client, Hrt. destruct rt as [err | resp]; [reflexivity |].
    cbn in Hfail. rewrite decide_False by lia. reflexivity. }
  rewrite Hc1. set (c1 := (snapshot (c, w)).1).
  assert (Hk1 : metricPoints c1 !! k = Some v).
  { unfold c1. now rewrite lookup_snapshot_other. }
  split; [exact Hk1 |]. intros w2.
  rewrite batch_spec. cbv zeta. cbn [fst].
  set (c2 := (snapshot (c1, w2)).1). set (w2' := (snapshot (c1, w2)).2).
  exists (visit (range_order w2' (tick w2')) (metricPoints c2)).
  do 2 eexists. split; [reflexivity |]. split.
  - replace (prefix c) with (prefix c2); [apply lines_of_is_line |].
    unfold c2, c1.
    pose proof (snapshot_config c w) as (_ & _ & Hp & _).
    pose proof (snapshot_config (snapshot (c, w)).1 w2) as (_ & _ & Hp2 & _).
    congruence.
  - rewrite (visit_perm _ _). apply elem_of_map_to_list.
    unfold c2. now rewrite lookup_snapshot_other.
Qed.

Lemma retry_resends_pending_entries_witness :
  metricPoints
    (PostMetrics (single_entry_client, still_world 5 (http.Failed "down"))).2.1
    !! mkKey events.Envelope_ValueMetric "name" "prod" "" "" "1.2.3.4"
  = Some {| tags := [ "ip=1.2.3.4"; "deployment=prod" ];
            points := [ {| Timestamp := 1000; Value := float_3_5 |} ] |}.
Proof.
  apply (retry_resends_pending_entries single_entry_client
           (still_world 5 (http.Failed "down")) (http.Failed "down")).
  - vm_compute. reflexivity.
  - exact I.
  - apply lookup_singleton_eq.
  - discriminate.
Defined.

(** ** The credentials *)

Lemma ingest_credentials (u p : string) (envelope : option events.Envelope) (c : Client) :
  ingest envelope (with_credentials u p c) = with_credentials u p (ingest envelope c).
Proof. unfold ingest. case_decide; reflexivity. Qed.

Lemma snapshot_credentials (u p : string) (c : Client) (w : World) :
  snapshot (with_credentials u p c, w) =
  (with_credentials u p (snapshot (c, w)).1, (snapshot (c, w)).2).
Proof.
  rewrite !snapshot_eq. cbv zeta.
  match goal with
  | |- (if containsSlowConsumerAlert ?a then _ else _) = _ =>
      match goal with
      | |- context [(if containsSlowConsumerAlert ?b then _ else _).1] =>
          change (containsSlowConsumerAlert a) with (containsSlowConsumerAlert b);
          destruct (containsSlowConsumerAlert b)
      end
  end; reflexivity.
Qed.

Lemma batch_credentials (u p : string) (c : Client) (w : World) :
  batch (with_credentials u p c, w) =
  ((batch (c, w)).1, (with_credentials u p (batch (c, w)).2.1, (batch (c, w)).2.2)).
Proof.
  rewrite !batch_spec. cbv zeta. rewrite snapshot_credentials. reflexivity.
Qed.

Lemma PostMetrics_credentials (u p : string) (c : Client) (w : World) :
  PostMetrics (with_credentials u p c, w) =
  ((PostMetrics (c, w)).1,
   (with_credentials u p (PostMetrics (c, w)).2.1, (PostMetrics (c, w)).2.2)).
Proof.
  rewrite !PostMetrics_unfold, batch_credentials.
  destruct (batch (c, w)) as [[[body n] | msg] [c1 w1]]; cbn [fst snd]; [| reflexivity].
  change (seriesURL (with_credentials u p c)) with (seriesURL c).
  destruct (url_parses w1 (seriesURL c)); [| reflexivity].
  cbv zeta. destruct (server w1 (tick w1) _) as [err | resp]; [reflexivity |].
  destruct (_ || _); reflexivity.
Qed.

Lemma step_credentials (u p : string) (op : Op) (c : Client) (w : World) :
  step op (with_credentials u p c, w) =
  ((step op (c, w)).1,
   (with_credentials u p (step op (c, w)).2.1, (step op (c, w)).2.2)).
Proof.
  destruct op as [envelope | | |]; cbn [step]; unfold_M.
  - rewrite !AddMetric_ingest, ingest_credentials. reflexivity.
  - unfold AlertSlowConsumerError. rewrite !addInternalMetric_spec. reflexivity.
  - rewrite !populateInternalMetrics_returns, snapshot_credentials. reflexivity.
  - apply PostMetrics_credentials.
Qed.

(** X14. The user and the password given to [New] are stored and never
    used: a run of the client with other credentials goes through the
    same outcomes and the same world, sends the same requests and ends
    in the same client but for the two stored fields. *)
Theorem credentials_are_not_used (u p : string) (ops : list Op)
    (c : Client) (w : World) (alerted : bool) :
  run ops (with_credentials u p c, w) alerted =
  ((with_credentials u p (run ops (c, w) alerted).1.1, (run ops (c, w) alerted).1.2),
   (run ops (c, w) alerted).2).
Proof.
  revert c w alerted. induction ops as [| op ops IH]; intros c w alerted; [reflexivity |].
  cbn [run]. rewrite step_credentials.
  destruct (step op (c, w)) as [r [c' w']]. cbn [fst snd]. apply IH.
Qed.

(** ** Requests over a run *)

Lemma PostMetrics_world (c : Client) (w : World) :
  url_parses (PostMetrics (c, w)).2.2 = url_parses w
  ∧ length (sent (PostMetrics (c, w)).2.2) =
    (length (sent w) + if url_parses w (seriesURL c) then 1 else 0)%nat.
Proof.
  rewrite PostMetrics_unfold.
  destruct (batch_returns c w) as (body & w1 & Hb & Hu & Hs).
  rewrite Hb. rewrite Hu.
  destruct (url_parses w (seriesURL c)); cbn [fst snd];
    [| rewrite Hu, Hs; split; [reflexivity | lia]].
  cbv zeta.
  match goal with
  | |- context [server ?a ?b ?r] => destruct (server a b r) as [err | resp]
  end;
    [| match goal with |- context [?a || ?b] => destruct (a || b) end];
    cbn [fst snd advance record_request sent url_parses length];
    rewrite Hu, Hs; split; first [reflexivity | lia].
Qed.

Lemma step_world (op : Op) (c : Client) (w : World) :
  url_parses (step op (c, w)).2.2 = url_parses w
  ∧ length (sent (step op (c, w)).2.2) =
    (length (sent w)
     + if decide (op = Flush) then if url_parses w (seriesURL c) then 1 else 0 else 0)%nat.
Proof.
  destruct op as [envelope | | |]; cbn [step]; unfold_M.
  - rewrite decide_False by discriminate.
    rewrite AddMetric_ingest. cbn. split; [reflexivity | lia].
  - rewrite decide_False by discriminate.
    unfold AlertSlowConsumerError. rewrite addInternalMetric_spec. cbn.
    split; [reflexivity | lia].
  - rewrite decide_False by discriminate.
    rewrite populateInternalMetrics_returns. cbn [fst snd].
    pose proof (snapshot_world c w) as (_ & _ & Hu & _ & Hs). cbv zeta in Hu, Hs.
    rewrite Hu, Hs. cbn. split; [reflexivity | lia].
  - rewrite decide_True by reflexivity. apply PostMetrics_world.
Qed.

Lemma same_config_seriesURL (c c' : Client) :
  same_config c c' → seriesURL c' = seriesURL c.
Proof. intros (Hu & Hd & _). unfold seriesURL. now rewrite Hu, Hd. Qed.

(** X15. Only a flush talks to the server, and it does so once: over
    any run the number of requests sent grows by the number of flushes
    when the client's URL parses, and by nothing when it does not. *)
Theorem requests_count_flushes (ops : list Op) (c : Client) (w : World) (alerted : bool) :
  length (sent (run ops (c, w) alerted).1.2) =
  (length (sent w) + if url_parses w (seriesURL c) then flushes ops else 0)%nat.
Proof.
  unfold flushes. revert c w alerted.
  induction ops as [| op ops IH]; intros c w alerted.
  - cbn. destruct (url_parses w (seriesURL c)); lia.
  - cbn [run]. destruct (step_world op c w) as [Hu Hs].
    pose proof (same_config_seriesURL _ _ (step_same_config op c w)) as Hurl.
    destruct (step op (c, w)) as [r [c' w']]. cbn [fst snd] in *.
    rewrite IH, Hu, Hurl, Hs, filter_cons.
    destruct (decide (op = Flush)); destruct (url_parses w (seriesURL c));
      cbn [length]; lia.
Qed.

(** ** The serializer at its edges *)

Lemma lines_of_tick (p : string) (entries : list (metricKey * metricValue)) (w : World) :
  tick (lines_of p entries w).2 = (tick w + length (filter pointless entries))%nat.
Proof.
  revert w. induction entries as [| [k v] rest IH]; intros w.
  - cbn. lia.
  - cbn [lines_of]. rewrite filter_cons.
    specialize (IH (match points v with [] => advance w | _ :: _ => w end)).
    destruct (lines_of p rest _) as [lines w2]. cbn [snd] in *. rewrite IH.
    destruct (decide (pointless (k, v))) as [Hp | Hp];
      unfold pointless in Hp; cbn [snd] in Hp.
    + rewrite Hp. cbn. lia.
    + destruct (points v); [contradiction | lia].
Qed.

Lemma formatMetrics_empty_map (c : Client) (w : World) :
  metricPoints c = ∅ → formatMetrics (c, w) = (Returns ("", 0), (c, advance w)).
Proof.
  intros Hempty. rewrite formatMetrics_spec. cbv zeta. rewrite Hempty.
  assert (Hv : visit (range_order w (tick w)) ∅ = []).
  { apply Permutation_nil_r. rewrite (visit_perm _ _). now rewrite map_to_list_empty. }
  rewrite Hv, map_size_empty. reflexivity.
Qed.

(** X16. The serializer writes the empty batch exactly when the mapping
    is empty, and the count 0 exactly then. *)
Theorem empty_batch_iff_empty_mapping (c : Client) (w : World) :
  ∃ (body : string) (n : Z),
    (formatMetrics (c, w)).1 = Returns (body, n)
    ∧ (body = "" ↔ metricPoints c = ∅)
    ∧ (n = 0 ↔ metricPoints c = ∅).
Proof.
  rewrite formatMetrics_spec. cbv zeta. cbn [fst].
  do 2 eexists. split; [reflexivity |].
  pose proof (visit_perm (range_order w (tick w)) (metricPoints c)) as Hperm.
  apply Permutation_length in Hperm. rewrite length_map_to_list in Hperm.
  split.
  - split.
    + match goal with
      | |- join_lines (lines_of ?p ?es ?w0).1 = "" → _ =>
          destruct (lines_of_not_empty p es w0) as [Hne Hlen];
          intros Hempty; apply (join_lines_empty _ Hne) in Hempty;
          rewrite Hempty in Hlen
      end.
      apply map_size_empty_inv. cbn [length] in Hlen. lia.
    + intros Hempty. rewrite Hempty in *. rewrite map_size_empty in Hperm.
      destruct (visit _ ∅); [reflexivity | discriminate].
  - rewrite <- map_size_empty_iff. lia.
Qed.

(** X17. An entry without points is written with an empty field set and
    the time of the wall clock: the clock is read once for each such
    entry of the mapping and for no other, and the line of a single such
    entry has two spaces between the tags and the current time in
    nanoseconds. *)
Theorem pointless_entries_read_the_clock :
  (∀ (c : Client) (w : World),
     tick (formatMetrics (c, w)).2.2 =
     (S (tick w) + length (filter pointless (map_to_list (metricPoints c))))%nat)
  ∧ (∀ (c : Client) (w : World) (k : metricKey) (tgs : list string),
       metricPoints c = {[ k := {| tags := tgs; points := [] |} ]} →
       formatMetrics (c, w) =
       (Returns (prefix c +:+ name k +:+ "," +:+ String.concat "," tgs +:+ "  " +:+
                 strconv.FormatInt (seconds_to_nanos (reading (advance w))) +:+ LF, 1),
        (c, advance (advance w)))).
Proof.
  split.
  - intros c w. rewrite formatMetrics_spec. cbv zeta. cbn [fst snd].
    rewrite lines_of_tick. cbn [tick advance].
    rewrite (visit_perm (range_order w (tick w)) (metricPoints c)). reflexivity.
  - intros c w k tgs Hmap. rewrite formatMetrics_spec. cbv zeta.
    rewrite Hmap, visit_singleton, map_size_singleton.
    cbn [lines_of points first_timestamp fst snd].
    unfold join_lines, line, value_fields. cbn [foldr map tags points String.concat].
    rewrite append_empty_r, append_empty_l. reflexivity.
Qed.

Lemma pointless_entries_read_the_clock_witness :
  (formatMetrics
     (set_metricPoints {[ alert_key example_client := {| tags := []; points := [] |} ]}
        example_client,
      still_world 3 (http.Failed "down"))).1
  = Returns ("app.slowConsumerAlert,  3000000000" +:+ LF, 1).
Proof.
  rewrite (proj2 pointless_entries_read_the_clock _ _ (alert_key example_client) []).
  - vm_compute. reflexivity.
  - reflexivity.
Defined.

Lemma empty_batch_iff_empty_mapping_witness :
  (formatMetrics (example_client, still_world 0 (http.Failed "down"))).1 = Returns ("", 0).
Proof.
  destruct (empty_batch_iff_empty_mapping example_client
              (still_world 0 (http.Failed "down"))) as (body & n & Hrun & Hbody & Hn).
  rewrite Hrun. f_equal. f_equal.
  - apply Hbody. reflexivity.
  - apply Hn. reflexivity.
Defined.

(** ** From an envelope to its line *)

(** X18. One metric in, one line out: a supported envelope ingested
    into an empty mapping is serialized as the prefix, the origin, a
    dot and the metric name, a comma, the derived tags joined by commas,
    a space, the value, a space and the envelope's timestamp cut to
    whole seconds, in nanoseconds.  With no deployment, job, index and
    address the comma is followed by the space at once. *)
Theorem one_metric_in_one_line_out (envelope : option events.Envelope)
    (c : Client) (w : World) :
  supported envelope →
  metricPoints c = ∅ →
  let nanos := events.GetTimestamp envelope in
  let stamp := strconv.FormatInt (nanos - Z.rem nanos 1000000000) in
  (AddMetric envelope ;; formatMetrics) (c, w) =
    (Returns (prefix c +:+ events.GetOrigin envelope +:+ "." +:+ payload_name envelope
              +:+ "," +:+ String.concat "," (getTags envelope)
              +:+ " value=" +:+ strconv.FormatFloat (payload_value envelope)
              +:+ " " +:+ stamp +:+ LF, 1),
     (ingest envelope c, advance w))
  ∧ (events.GetDeployment envelope = "" → events.GetJob envelope = "" →
     events.GetIndex envelope = "" → events.GetIp envelope = "" →
     (AddMetric envelope ;; formatMetrics) (c, w) =
       (Returns (prefix c +:+ events.GetOrigin envelope +:+ "." +:+ payload_name envelope
                 +:+ ", value=" +:+ strconv.FormatFloat (payload_value envelope)
                 +:+ " " +:+ stamp +:+ LF, 1),
        (ingest envelope c, advance w))).
Proof.
  intros Hs Hempty. cbv zeta.
  assert (Hmap : metricPoints (ingest envelope c) =
                 {[ identity envelope :=
                      {| tags := getTags envelope; points := [ observation envelope ] |} ]}).
  { unfold ingest. rewrite decide_True by exact Hs.
    cbn [metricPoints set_metricPoints set_totalMessagesReceived].
    rewrite Hempty, lookup_empty. cbn [default from_option zero_metricValue points app].
    apply insert_empty. }
  assert (Hp : prefix (ingest envelope c) = prefix c) by apply ingest_config.
  assert (Hrun : (AddMetric envelope ;; formatMetrics) (c, w) =
    (Returns (prefix c +:+ events.GetOrigin envelope +:+ "." +:+ payload_name envelope
              +:+ "," +:+ String.concat "," (getTags envelope)
              +:+ " value=" +:+ strconv.FormatFloat (payload_value envelope)
              +:+ " " +:+ strconv.FormatInt
                (events.GetTimestamp envelope - Z.rem (events.GetTimestamp envelope) 1000000000)
              +:+ LF, 1),
     (ingest envelope c, advance w))).
  { unfold_M. rewrite AddMetric_ingest. simpl_M.
    rewrite formatMetrics_spec. cbv zeta.
    rewrite Hmap, visit_singleton, map_size_singleton, Hp.
    cbn [lines_of points first_timestamp fst snd].
    unfold join_lines, line, value_fields.
    cbn [foldr map tags points String.concat identity name observation Value Timestamp].
    rewrite (seconds_to_nanos_no_overflow _ (GetTimestamp_in_range envelope)).
    pose proof (Z.quot_rem' (events.GetTimestamp envelope) 1000000000) as Hqr.
    unfold time_Second.
    replace (events.GetTimestamp envelope ÷ 1000000000 * 1000000000)
      with (events.GetTimestamp envelope - Z.rem (events.GetTimestamp envelope) 1000000000)
      by lia.
    unfold derived_name. rewrite append_empty_r, !append_assoc. reflexivity. }
  split; [exact Hrun |].
  intros Hd Hj Hi Ha. rewrite Hrun.
  unfold getTags, appendTagIfNotEmpty. rewrite Hd, Hj, Hi, Ha.
  rewrite !(decide_False (P := "" ≠ "")) by (intros H; now apply H).
  cbn [String.concat]. rewrite append_empty_l.
  reflexivity.
Qed.

Lemma one_metric_in_one_line_out_witness :
  (AddMetric (cpu_envelope "web" 1500000000 float_3_5) ;; formatMetrics)
    (example_client, still_world 0 (http.Failed "down"))
  = (Returns ("app.router.cpu,deployment=prod,job=web,index=0,ip=10.0.0.1 value=3.5 1000000000"
              +:+ LF, 1),
     (ingest (cpu_envelope "web" 1500000000 float_3_5) example_client,
      advance (still_world 0 (http.Failed "down")))).
Proof.
  destruct (one_metric_in_one_line_out (cpu_envelope "web" 1500000000 float_3_5)
              example_client (still_world 0 (http.Failed "down"))) as [Hrun _].
  - left. reflexivity.
  - reflexivity.
  - rewrite Hrun. vm_compute. reflexivity.
Defined.

(** ** The line of an internal metric *)

Example FormatFloat_one : strconv.FormatFloat (float64_of_uint64 1) = "1".
Proof. vm_compute. reflexivity. Qed.

(** X19. An internal metric is written with the tags of the client's
    address and deployment, in this order, and the time of its
    recording: after [AlertSlowConsumerError] on an empty mapping the
    batch is the one line
    [<prefix>slowConsumerAlert,ip=<ip>,deployment=<deployment> value=1 <ns>]. *)
Theorem alert_line (c : Client) (w : World) :
  metricPoints c = ∅ →
  (AlertSlowConsumerError ;; formatMetrics) (c, w) =
    (Returns (prefix c +:+ "slowConsumerAlert,ip=" +:+ c_ip c +:+ ",deployment="
              +:+ c_deployment c +:+ " value=1 "
              +:+ strconv.FormatInt (seconds_to_nanos (reading w)) +:+ LF, 1),
     (with_internal "slowConsumerAlert" (reading w) 1 c, advance (advance w))).
Proof.
  intros Hempty. unfold AlertSlowConsumerError. unfold_M.
  rewrite addInternalMetric_spec. simpl_M. rewrite formatMetrics_spec. cbv zeta.
  assert (Hmap : metricPoints (with_internal "slowConsumerAlert" (reading w) 1 c) =
                 {[ alert_key c := internal_entry c (reading w) 1 ]}).
  { unfold with_internal. cbn [metricPoints set_metricPoints]. rewrite Hempty.
    apply insert_empty. }
  rewrite Hmap, visit_singleton, map_size_singleton.
  cbn [lines_of points internal_entry first_timestamp fst snd Timestamp].
  unfold join_lines, line, value_fields.
  cbn [foldr map tags points internal_entry String.concat alert_key internal_key name
       Value prefix with_internal set_metricPoints].
  rewrite FormatFloat_one.
  rewrite append_empty_r, !append_assoc. reflexivity.
Qed.

Lemma alert_line_witness :
  ((AlertSlowConsumerError ;; formatMetrics)
     (example_client, still_world 3 (http.Failed "down"))).1
  = Returns ("app.slowConsumerAlert,ip=1.2.3.4,deployment=prod value=1 3000000000" +:+ LF, 1).
Proof.
  rewrite (alert_line example_client (still_world 3 (http.Failed "down")) eq_refl).
  vm_compute. reflexivity.
Defined.

(** ** The counters over a run *)

Lemma step_received (op : Op) (c : Client) (w : World) :
  totalMessagesReceived (step op (c, w)).2.1 =
  if decide (∃ envelope, op = Ingest envelope)
  then Int.uint64 (totalMessagesReceived c + 1)
  else totalMessagesReceived c.
Proof.
  pose proof (step_cases op c w) as Hop.
  destruct op as [envelope | | |].
  - rewrite decide_True by eauto. destruct Hop as [_ ->]. apply ingest_counters.
  - rewrite decide_False by (intros [e He]; discriminate).
    destruct Hop as [_ ->]. reflexivity.
  - rewrite decide_False by (intros [e He]; discriminate).
    destruct Hop as [_ ->]. apply snapshot_config.
  - rewrite decide_False by (intros [e He]; discriminate).
    rewrite PostMetrics_client.
    pose proof (snapshot_config c w) as (_ & _ & _ & _ & _ & Hr & _).
    destruct (transport_answer (c, w)) as [[err | resp] |]; try exact Hr.
    case_decide; exact Hr.
Qed.

(** X20. [totalMessagesReceived] is cumulative over the life of the
    client: after any run from [New] it is the number of envelopes handed
    to [AddMetric], modulo 2^64; a flush, successful or not, does not
    reset it. *)
Theorem received_counter_survives_flushes
    (url database user password pfx deployment ip : string)
    (w0 : World) (ops : list Op) :
  totalMessagesReceived
    (run ops (New url database user password pfx deployment ip, w0) false).1.1
  = Z.of_nat (ingests ops) mod 2 ^ 64.
Proof.
  assert (Hgen : ∀ ops c w a,
    Int.in_uint64 (totalMessagesReceived c) →
    totalMessagesReceived (run ops (c, w) a).1.1 =
    Int.uint64 (totalMessagesReceived c + Z.of_nat (ingests ops))).
  { clear. intros ops. unfold ingests.
    induction ops as [| op ops IH]; intros c w a Hc.
    - cbn. rewrite Z.add_0_r. symmetry. now apply uint64_id.
    - cbn [run]. pose proof (step_received op c w) as Hr.
      destruct (step op (c, w)) as [r [c' w']]. cbn [fst snd] in *.
      rewrite filter_cons.
      destruct (decide (∃ envelope, op = Ingest envelope)).
      + rewrite IH by (rewrite Hr; apply uint64_in_range).
        rewrite Hr, uint64_add_l. cbn [length]. f_equal. lia.
      + rewrite IH by (rewrite Hr; exact Hc). now rewrite Hr. }
  rewrite Hgen by (cbn; unfold Int.in_uint64, Int.max_uint64; lia).
  reflexivity.
Qed.

(** X21. [totalMetricsSent] moves only when a flush succeeds: an
    operation that changes it is a flush that returned nil. *)
Theorem sent_counter_moves_on_success_only (op : Op) (c : Client) (w : World) :
  totalMetricsSent (step op (c, w)).2.1 ≠ totalMetricsSent c →
  op = Flush ∧ (step op (c, w)).1 = Returns None.
Proof.
  destruct op as [envelope | | |]; cbn [step]; unfold_M.
  - rewrite AddMetric_ingest. cbn [fst snd].
    destruct (ingest_counters envelope c) as [_ ->]. congruence.
  - unfold AlertSlowConsumerError. rewrite addInternalMetric_spec. cbn. congruence.
  - rewrite populateInternalMetrics_returns. cbn [fst snd].
    pose proof (snapshot_config c w) as (_ & _ & _ & _ & _ & _ & ->). congruence.
  - rewrite PostMetrics_unfold.
    destruct (batch_returns c w) as (body & w1 & -> & _ & _).
    pose proof (snapshot_config c w) as (_ & _ & _ & _ & _ & _ & Hs).
    destruct (url_parses w1 (seriesURL c)); cbn [fst snd]; [| congruence].
    cbv zeta. destruct (server w1 (tick w1) _) as [err | resp];
      [cbn [fst snd]; congruence |].
    destruct (_ || _); cbn [fst snd]; [congruence | auto].
Qed.

Lemma sent_counter_moves_on_success_only_witness :
  (step Flush (example_client,
               still_world 5 (http.Answered (http.mkResponse 299 "299")))).1
  = Returns None.
Proof.
  apply (sent_counter_moves_on_success_only Flush example_client
           (still_world 5 (http.Answered (http.mkResponse 299 "299")))).
  vm_compute. discriminate.
Defined.

Lemma entries_are_the_identities_fed_witness :
  ∃ c' : Client,
    AddMetrics [ cpu_envelope "web" 1500000000 float_3_5; log_envelope ]
      (example_client, still_world 0 (http.Failed "down"))
    = (Returns tt, (c', still_world 0 (http.Failed "down")))
    ∧ is_Some (metricPoints c' !! identity (cpu_envelope "web" 0 float_3_5))
    ∧ metricPoints c' !! identity log_envelope = None.
Proof.
  destruct (entries_are_the_identities_fed
              [ cpu_envelope "web" 1500000000 float_3_5; log_envelope ]
              example_client (still_world 0 (http.Failed "down"))) as (c' & Hrun & Hdom).
  exists c'. split; [exact Hrun |]. split.
  - apply Hdom. right. exists (cpu_envelope "web" 1500000000 float_3_5).
    split; [left |]. split; [left |]; reflexivity.
  - apply eq_None_not_Some. intros Hsome. apply Hdom in Hsome as [Hsome | (e & Hin & Hs & He)].
    + destruct Hsome as [v Hv]. cbn in Hv. rewrite lookup_empty in Hv. discriminate.
    + apply elem_of_cons in Hin as [-> | Hin].
      * apply (f_equal eventType) in He. discriminate.
      * apply elem_of_cons in Hin as [-> | Hin]; [| inversion Hin].
        destruct Hs as [Hs | Hs]; discriminate.
Defined.
